(** * Ghost.py: a shallow embedding of [ghost/ghost.py]

    The Python module drives an embedded WebKit page.  Everything the
    module itself decides is embedded here as executable definitions:
    the dialog hooks of [GhostWebPage], the [can_load_page] decorator,
    [HttpResource], and the methods of [Ghost] that wait, drain the
    resource buffer and act on elements.  The browser engine, the host
    clock and the client's callables are the parameters of the
    development: the engine is a record of operations on the whole
    program state, so nothing is assumed about what a page does.

    Conventions
    - a Python object attribute is a field of [state]; assignment is a
      setter; the class attributes of [Ghost] (shared by all instances)
      and the attributes of the one instance live in the same record;
    - a method is a function [state -> outcome A * state]: the state
      reached is kept when an exception is raised, as in Python;
    - time is counted in milliseconds, as an integer; [time.sleep(0.01)]
      is ten of them;
    - the [while] loop of [wait_for] takes fuel, and running out of fuel
      is an outcome of its own, distinct from returning and raising. *)

From Stdlib Require Import ZArith Lia Ascii.
From stdpp Require Import base option list strings gmap pretty.

Local Open Scope Z_scope.

(** ** Python values, exceptions and outcomes *)

(** The double quote character, for the messages that contain one. *)
Definition dq : string := String "034"%char EmptyString.

(** The values handed to and returned by the dialog callbacks and the
    form-filling methods. *)
Inductive pyval : Type :=
  | VNone
  | VBool (b : bool)
  | VInt (z : Z)
  | VStr (s : string).

#[global] Instance pyval_eq_dec : EqDecision pyval.
Proof. solve_decision. Defined.

(** Python's [==] on these values, as far as the module uses it: a
    value compared with a string literal. *)
Definition py_eq_str (v : pyval) (s : string) : bool :=
  match v with
  | VStr t => bool_decide (t = s)
  | _ => false
  end.

(** An exception object: the name of its class and its message. *)
Record pyexc : Type := mkExc { exc_class : string; exc_message : string }.

#[global] Instance pyexc_eq_dec : EqDecision pyexc.
Proof. solve_decision. Defined.

(** [Exception(msg)], the only exception the module constructs. *)
Definition Exception (msg : string) : pyexc :=
  {| exc_class := "Exception"; exc_message := msg |}.

(** Raised by [unicode(...)] on a byte string that is not ASCII. *)
Definition UnicodeDecodeError (msg : string) : pyexc :=
  {| exc_class := "UnicodeDecodeError"; exc_message := msg |}.

Inductive outcome (A : Type) : Type :=
  | Return (a : A)
  | Raise (e : pyexc)
  | OutOfFuel.
Arguments Return {A} a.
Arguments Raise {A} e.
Arguments OutOfFuel {A}.

(** ** Strings as Python 2 sees them *)

(** A Python 2 text value is either a [unicode] or a byte string. *)
Inductive pystring : Type :=
  | PyUnicode (s : string)
  | PyBytes (s : string).

Definition is_ascii_char (c : ascii) : bool := (N_of_ascii c <? 128)%N.

Fixpoint is_ascii (s : string) : bool :=
  match s with
  | EmptyString => true
  | String c rest => is_ascii_char c && is_ascii rest
  end.

(** [unicode(b)] with the default codec: the text itself when every
    byte is below 128, [UnicodeDecodeError] otherwise. *)
Definition unicode (b : string) : pyexc + string :=
  if is_ascii b then inr b
  else inl (UnicodeDecodeError "'ascii' codec can't decode byte").

Definition upper_char (c : ascii) : ascii :=
  let n := N_of_ascii c in
  if ((97 <=? n) && (n <=? 122))%N then ascii_of_N (n - 32) else c.

Definition lower_char (c : ascii) : ascii :=
  let n := N_of_ascii c in
  if ((65 <=? n) && (n <=? 90))%N then ascii_of_N (n + 32) else c.

Fixpoint lower (s : string) : string :=
  match s with
  | EmptyString => EmptyString
  | String c rest => String (lower_char c) (lower rest)
  end.

(** [str.capitalize()]: first character upper case, the rest lower. *)
Definition capitalize (s : string) : string :=
  match s with
  | EmptyString => EmptyString
  | String c rest => String (upper_char c) (lower rest)
  end.

(** ** Network replies and [HttpResource] *)

(** What the module reads off a [QNetworkReply]. [reply_status] is
    [reply.attribute(QNetworkRequest.HttpStatusCodeAttribute)], which
    is [None] when the reply carries no HTTP status. *)
Record QNetworkReply : Type := mkReply {
  reply_url : string;
  reply_status : option Z;
  rawHeaderList : list string;
  rawHeader : string -> string;
  readAll : string
}.

(** The attributes [HttpResource.__init__] assigns. *)
Record HttpResource : Type := mkResource {
  url : string;
  content : option pystring;
  http_status : option Z;
  headers : gmap string string;
  _reply : QNetworkReply
}.

(** Truth value of the status attribute in [if reply.attribute(...)]:
    [None] and [0] are false. *)
Definition status_truthy (st : option Z) : bool :=
  match st with
  | Some z => negb (z =? 0)
  | None => false
  end.

(** [str(self.http_status)] inside the log line. *)
Definition status_text (st : option Z) : string :=
  match st with
  | Some z => pretty z
  | None => "None"
  end.

(** The body recovered from the cache when no content was passed:
    [cache.data(url)] gives no device for an unknown URL; otherwise the
    bytes are decoded, and kept as bytes when decoding fails. *)
Definition content_from_cache (cache : gmap string string) (u : string)
  : option pystring :=
  match cache !! u with
  | None => None
  | Some bytes =>
      match unicode bytes with
      | inr text => Some (PyUnicode text)
      | inl _ => Some (PyBytes bytes)
      end
  end.

(** The loop [for header in reply.rawHeaderList(): self.headers[...] = ...]
    over the headers still to be read; [unicode] raises on the first
    header that is not ASCII. *)
Fixpoint read_headers (reply : QNetworkReply) (names : list string)
    (acc : gmap string string) : pyexc + gmap string string :=
  match names with
  | [] => inr acc
  | h :: rest =>
      match unicode h with
      | inl e => inl e
      | inr k =>
          match unicode (rawHeader reply h) with
          | inl e => inl e
          | inr v => read_headers reply rest (<[k := v]> acc)
          end
      end
  end.

(** ** Logging *)

Inductive log_level : Type := info | warning | error.

Record log_record : Type := mkLog {
  level : log_level;
  sender : string;
  message : string
}.

(** ** The monad of methods

    A method runs on the program state and returns, raises, or runs out
    of fuel; the state it reached is kept in each case. *)

Definition M (St A : Type) : Type := St -> outcome A * St.

Definition ret {St A} (a : A) : M St A := fun s => (Return a, s).

Definition raise {St A} (e : pyexc) : M St A := fun s => (Raise e, s).

Definition bind {St A B} (m : M St A) (k : A -> M St B) : M St B :=
  fun s =>
    match m s with
    | (Return a, s1) => k a s1
    | (Raise e, s1) => (Raise e, s1)
    | (OutOfFuel, s1) => (OutOfFuel, s1)
    end.

Definition get {St A} (f : St -> A) : M St A := fun s => (Return (f s), s).

Definition modify {St} (f : St -> St) : M St unit := fun s => (Return tt, f s).

Notation "x <- c ;; k" := (bind c (fun x => k))
  (at level 90, c at next level, right associativity).
Notation "c ;;; k" := (bind c (fun _ => k))
  (at level 90, right associativity).

(** ** Program state *)

Section Ghost.

(** [DOM] is the engine's own state (page, frames, network manager),
    [element] a [QWebElement] handle, [callable] the Python callables
    the client passes in, and [client] the state those callables act
    on. *)
Context {DOM element callable client : Type}.

(** A dialog expectation: the pair [(value, callback)] stored by
    [__enter__]. *)
Definition expectation : Type := (pyval * option callable)%type.

Record state : Type := mkState {
  (* class attributes of Ghost *)
  _alert : option string;
  _confirm_expected : option expectation;
  _prompt_expected : option expectation;
  _upload_file : pyval;
  (* attributes of the instance *)
  http_resources : list HttpResource;
  loaded : bool;
  cache : gmap string string;
  _auth : option (string * string);
  _auth_attempt : Z;
  (* the host *)
  page : DOM;
  now : Z;
  user : client;
  fired : list callable;
  log : list log_record
}.

Definition set_alert (v : option string) (s : state) : state :=
  mkState v (_confirm_expected s) (_prompt_expected s) (_upload_file s)
    (http_resources s) (loaded s) (cache s) (_auth s) (_auth_attempt s)
    (page s) (now s) (user s) (fired s) (log s).

Definition set_confirm_expected (v : option expectation) (s : state) : state :=
  mkState (_alert s) v (_prompt_expected s) (_upload_file s)
    (http_resources s) (loaded s) (cache s) (_auth s) (_auth_attempt s)
    (page s) (now s) (user s) (fired s) (log s).

Definition set_prompt_expected (v : option expectation) (s : state) : state :=
  mkState (_alert s) (_confirm_expected s) v (_upload_file s)
    (http_resources s) (loaded s) (cache s) (_auth s) (_auth_attempt s)
    (page s) (now s) (user s) (fired s) (log s).

Definition set_upload_file (v : pyval) (s : state) : state :=
  mkState (_alert s) (_confirm_expected s) (_prompt_expected s) v
    (http_resources s) (loaded s) (cache s) (_auth s) (_auth_attempt s)
    (page s) (now s) (user s) (fired s) (log s).

Definition set_http_resources (v : list HttpResource) (s : state) : state :=
  mkState (_alert s) (_confirm_expected s) (_prompt_expected s) (_upload_file s)
    v (loaded s) (cache s) (_auth s) (_auth_attempt s)
    (page s) (now s) (user s) (fired s) (log s).

Definition set_loaded (v : bool) (s : state) : state :=
  mkState (_alert s) (_confirm_expected s) (_prompt_expected s) (_upload_file s)
    (http_resources s) v (cache s) (_auth s) (_auth_attempt s)
    (page s) (now s) (user s) (fired s) (log s).

Definition set_cache (v : gmap string string) (s : state) : state :=
  mkState (_alert s) (_confirm_expected s) (_prompt_expected s) (_upload_file s)
    (http_resources s) (loaded s) v (_auth s) (_auth_attempt s)
    (page s) (now s) (user s) (fired s) (log s).

Definition set_auth (a : option (string * string)) (n : Z) (s : state) : state :=
  mkState (_alert s) (_confirm_expected s) (_prompt_expected s) (_upload_file s)
    (http_resources s) (loaded s) (cache s) a n
    (page s) (now s) (user s) (fired s) (log s).

Definition set_now (v : Z) (s : state) : state :=
  mkState (_alert s) (_confirm_expected s) (_prompt_expected s) (_upload_file s)
    (http_resources s) (loaded s) (cache s) (_auth s) (_auth_attempt s)
    (page s) v (user s) (fired s) (log s).

Definition set_user (v : client) (s : state) : state :=
  mkState (_alert s) (_confirm_expected s) (_prompt_expected s) (_upload_file s)
    (http_resources s) (loaded s) (cache s) (_auth s) (_auth_attempt s)
    (page s) (now s) v (fired s) (log s).

Definition set_fired (v : list callable) (s : state) : state :=
  mkState (_alert s) (_confirm_expected s) (_prompt_expected s) (_upload_file s)
    (http_resources s) (loaded s) (cache s) (_auth s) (_auth_attempt s)
    (page s) (now s) (user s) v (log s).

Definition set_log (v : list log_record) (s : state) : state :=
  mkState (_alert s) (_confirm_expected s) (_prompt_expected s) (_upload_file s)
    (http_resources s) (loaded s) (cache s) (_auth s) (_auth_attempt s)
    (page s) (now s) (user s) (fired s) v.

(** [Logger.log(message, sender, level)]: the three levels the module
    logs at are attributes of the logger, so the call never raises. *)
Definition Logger_log (msg sndr : string) (lvl : log_level) : M state unit :=
  modify (fun s => set_log (log s ++ [mkLog lvl sndr msg]) s).

(** ** Client callables *)

(** What calling a client callable does: it runs on the client's own
    state and returns a value or raises.  [fired] records every call,
    in order. *)
Variable call : callable -> client -> outcome pyval * client.

Definition invoke (c : callable) : M state pyval :=
  fun s =>
    let '(r, u) := call c (user s) in
    (r, set_user u (set_fired (fired s ++ [c]) s)).

(** ** GhostWebPage: the dialog hooks *)

Definition javaScriptAlert (msg : string) : M state unit :=
  modify (set_alert (Some msg)) ;;;
  Logger_log ("alert('" +:+ msg +:+ "')") "Frame" info.

Definition javaScriptConfirm (msg : string) : M state pyval :=
  expected <- get _confirm_expected ;;
  match expected with
  | None =>
      raise (Exception
               ("You must specified a value to confirm " +:+ dq +:+ msg +:+ dq))
  | Some (confirmation, callback) =>
      modify (set_confirm_expected None) ;;;
      Logger_log ("confirm('" +:+ msg +:+ "')") "Frame" info ;;;
      match callback with
      | Some c => invoke c
      | None => ret confirmation
      end
  end.

(** What [javaScriptPrompt] returns: the pair [(True, value)], or
    [True] alone. *)
Inductive prompt_return : Type :=
  | RetPair (ok : bool) (value : pyval)
  | RetBool (ok : bool).

(** [result] is the list passed by reference by one of the two
    bindings, [None] under the other; the hook's second component is
    that same list after the call. *)
Definition javaScriptPrompt (msg defaultValue : string)
    (result : option (list pyval)) : M state (prompt_return * option (list pyval)) :=
  expected <- get _prompt_expected ;;
  match expected with
  | None =>
      raise (Exception
               ("You must specified a value for prompt " +:+ dq +:+ msg +:+ dq))
  | Some (value, callback) =>
      Logger_log ("prompt('" +:+ msg +:+ "')") "Frame" info ;;;
      result_value <- match callback with
                      | Some c => invoke c
                      | None => ret value
                      end ;;
      (if py_eq_str result_value EmptyString
       then Logger_log ("'" +:+ msg +:+ "' prompt filled with empty string")
              "Ghost" warning
       else ret tt) ;;;
      modify (set_prompt_expected None) ;;;
      match result with
      | None => ret (RetPair true result_value, None)
      | Some l => ret (RetBool true, Some (l ++ [result_value]))
      end
  end.

(** ** The [with ghost.confirm(...)] and [with ghost.prompt(...)] blocks *)

Definition confirm__enter__ (confirm : pyval) (callback : option callable)
  : M state unit :=
  modify (set_confirm_expected (Some (confirm, callback))).

Definition confirm__exit__ : M state unit := modify (set_confirm_expected None).

Definition prompt__enter__ (value : pyval) (callback : option callable)
  : M state unit :=
  modify (set_prompt_expected (Some (value, callback))).

Definition prompt__exit__ : M state unit := modify (set_prompt_expected None).

(** A [with] statement: [__exit__] runs however the body ends, and
    returns [None], so an exception of the body propagates. *)
Definition with_block {A} (enter leave : M state unit) (body : M state A) : M state A :=
  fun s =>
    match enter s with
    | (Return _, s1) =>
        let '(r, s2) := body s1 in
        match leave s2 with
        | (Return _, s3) => (r, s3)
        | (Raise e, s3) => (Raise e, s3)
        | (OutOfFuel, s3) => (OutOfFuel, s3)
        end
    | (Raise e, s1) => (Raise e, s1)
    | (OutOfFuel, s1) => (OutOfFuel, s1)
    end.

Definition with_confirm {A} (confirm : pyval) (callback : option callable)
    (body : M state A) : M state A :=
  with_block (confirm__enter__ confirm callback) confirm__exit__ body.

Definition with_prompt {A} (value : pyval) (callback : option callable)
    (body : M state A) : M state A :=
  with_block (prompt__enter__ value callback) prompt__exit__ body.

(** The dialogs a page can open.  The engine calls the hook; an
    exception raised inside a hook is reported by the binding and
    does not unwind the script, so what remains of a dialog for the
    script is the state the hook leaves. *)
Inductive dialog : Type :=
  | AlertDialog (msg : string)
  | ConfirmDialog (msg : string)
  | PromptDialog (msg defaultValue : string) (result : option (list pyval)).

Definition fire (d : dialog) (s : state) : state :=
  match d with
  | AlertDialog msg => snd (javaScriptAlert msg s)
  | ConfirmDialog msg => snd (javaScriptConfirm msg s)
  | PromptDialog msg dv result => snd (javaScriptPrompt msg dv result s)
  end.

Definition fire_all (ds : list dialog) (s : state) : state :=
  fold_left (fun acc d => fire d acc) ds s.

(** The state after a line was written to the log. *)
Definition logged (lvl : log_level) (sndr text : string) (s : state) : state :=
  set_log (log s ++ [mkLog lvl sndr text]) s.

(** The value a hook hands to the engine for an expectation
    [(value, callback)], when there is one: the callback's result if a
    callback was given and returns, the fixed value if none was given. *)
Definition answers (callback : option callable) (value answer : pyval)
    (s : state) : Prop :=
  match callback with
  | Some c => fst (call c (user s)) = Return answer
  | None => answer = value
  end.

(** The answer the engine sees in what the prompt hook returns: the
    second component of the pair, or the element appended to the list
    passed by reference. *)
Definition prompt_answer (r : prompt_return * option (list pyval))
  : option pyval :=
  match r with
  | (RetPair _ v, _) => Some v
  | (RetBool _, Some l) => last l
  | (RetBool _, None) => None
  end.

Definition is_confirm (d : dialog) : Prop :=
  match d with
  | ConfirmDialog _ => True
  | _ => False
  end.

(** ** The engine and the instance *)

(** A request as [open] builds it: the address and the raw headers set
    on it, in the order of the loop. *)
Record QNetworkRequest : Type := mkRequest {
  request_url : string;
  request_headers : list (string * string)
}.

(** The operations of the toolkit the module calls.  A query reads the
    engine's state.  An operation that lets the engine run acts on the
    whole program state: while it runs, the engine may call the hooks
    and the slots connected in [Ghost.__init__], which assign
    attributes. *)
Record engine : Type := mkEngine {
  (* QWebFrame and QWebElement *)
  findFirstElement : string -> DOM -> element;
  findAllElements : string -> DOM -> list element;
  isNull : element -> bool;
  tagName : element -> DOM -> string;
  attribute : element -> string -> DOM -> string;
  setFocus : element -> state -> state;
  setAttribute : element -> string -> pyval -> state -> state;
  removeAttribute : element -> string -> state -> state;
  setPlainText : element -> pyval -> state -> state;
  evaluateJavaScript : string -> state -> pyval * state;
  frame_url : DOM -> string;
  toHtml : DOM -> string;
  frame_load : QNetworkRequest -> string -> string -> state -> state;
  (* getattr(QNetworkAccessManager, name): the attribute, by its name *)
  QNetworkAccessManager_attr : string -> option string;
  (* QApplication *)
  processEvents : state -> state
}.

(** The attributes of a [Ghost] instance that are assigned once, in
    [__init__], and only read afterwards. *)
Record ghost : Type := mkGhost {
  wait_timeout : Z;
  wait_callback : option callable
}.

Variable E : engine.
Variable self : ghost.

(** ** Slots connected to the engine's signals *)

(** [HttpResource.__init__(reply, cache, content)].  The [url]
    attribute is the text of the reply's URL, as on the [PYSIDE]
    branch; on the other branch the attribute is the [QUrl] of the same
    text. *)
Definition HttpResource__init__ (reply : QNetworkReply)
    (cache_ : gmap string string) (content_ : option pystring)
  : M state HttpResource :=
  let url_ := reply_url reply in
  let body :=
    match content_ with
    | None => content_from_cache cache_ url_
    | Some c => Some c
    end in
  let status := reply_status reply in
  Logger_log ("Resource loaded: " +:+ url_ +:+ " " +:+ status_text status)
    "Ghost" info ;;;
  match read_headers reply (rawHeaderList reply) ∅ with
  | inl e => raise e
  | inr hs => ret (mkResource url_ body status hs reply)
  end.

Definition _page_loaded : M state unit :=
  modify (set_loaded true) ;;;
  modify (set_cache ∅).

Definition _page_load_started : M state unit :=
  modify (set_loaded false).

Definition _release_last_resources : M state (list HttpResource) :=
  last_resources <- get http_resources ;;
  modify (set_http_resources []) ;;;
  ret last_resources.

Definition _request_ended (reply : QNetworkReply) : M state unit :=
  if status_truthy (reply_status reply) then
    c <- get cache ;;
    r <- HttpResource__init__ reply c None ;;
    modify (fun s => set_http_resources (http_resources s ++ [r]) s)
  else ret tt.

Definition _unsupported_content (reply : QNetworkReply) : M state unit :=
  if status_truthy (reply_status reply) then
    c <- get cache ;;
    r <- HttpResource__init__ reply c (Some (PyBytes (readAll reply))) ;;
    modify (fun s => set_http_resources (http_resources s ++ [r]) s)
  else ret tt.

(** The signals connected in [__init__], and the slot each one runs. *)
Inductive signal : Type :=
  | loadFinished
  | loadStarted
  | unsupportedContent (reply : QNetworkReply)
  | finished (reply : QNetworkReply).

Definition dispatch (sig : signal) : M state unit :=
  match sig with
  | loadFinished => _page_loaded
  | loadStarted => _page_load_started
  | unsupportedContent reply => _unsupported_content reply
  | finished reply => _request_ended reply
  end.

(** Signals handled one after the other as one call, which an
    exception of a slot ends: used for runs of signals all of whose
    slots return.  What the toolkit does with any run of signals is
    [deliver_all] below. *)
Fixpoint deliver (sigs : list signal) : M state unit :=
  match sigs with
  | [] => ret tt
  | sig :: rest => dispatch sig ;;; deliver rest
  end.

(** The reply a signal gets recorded for: the reply of a [finished] or
    [unsupportedContent] signal whose status is true. *)
Definition recorded_reply (sig : signal) : option QNetworkReply :=
  match sig with
  | finished reply | unsupportedContent reply =>
      if status_truthy (reply_status reply) then Some reply else None
  | loadFinished | loadStarted => None
  end.

(** A record that carries the URL and the status of its own reply. *)
Definition describes_reply (r : HttpResource) : Prop :=
  url r = reply_url (_reply r) /\ http_status r = reply_status (_reply r).

(** ** Waiting *)

Definition time_time : M state Z := get now.

(** [time.sleep] lasts at least the time asked for.  The clock is
    moved by that time here; by how much the sleep overran is not read
    by anyone before the event pump that follows it in [wait_for],
    and is counted with the time that pump takes, which is the
    engine's to say. *)
Definition time_sleep (ms : Z) : M state unit :=
  modify (fun s => set_now (now s + ms) s).

(** The [while not condition()] loop of [wait_for], with [started_at]
    already read. *)
Fixpoint wait_for_loop (fuel : nat) (condition : M state bool)
    (timeout_message : string) (started_at : Z) : M state unit :=
  match fuel with
  | O => fun s => (OutOfFuel, s)
  | S fuel' =>
      c <- condition ;;
      if c then ret tt
      else
        t <- time_time ;;
        if started_at + wait_timeout self <? t
        then raise (Exception timeout_message)
        else
          time_sleep 10 ;;;
          modify (processEvents E) ;;;
          match wait_callback self with
          | Some cb => invoke cb ;;; ret tt
          | None => ret tt
          end ;;;
          wait_for_loop fuel' condition timeout_message started_at
  end.

Definition wait_for (fuel : nat) (condition : M state bool)
    (timeout_message : string) : M state unit :=
  started_at <- time_time ;;
  wait_for_loop fuel condition timeout_message started_at.

(** A condition that is false whenever it is evaluated. *)
Definition never_true (condition : M state bool) : Prop :=
  forall s, fst (condition s) = Return false.

(** The wait callback, if there is one, returns whenever it is called. *)
Definition wait_callback_returns : Prop :=
  forall cb, wait_callback self = Some cb ->
  forall u, exists v, fst (call cb u) = Return v.

(** The clock is not set back by a step. *)
Definition clock_goes_forward (step : state -> state) : Prop :=
  forall s, now s <= now (step s).

(** The loop [for resource in resources: if url == resource.url:
    page = resource], from [page = None]. *)
Definition find_page (url_ : string) (resources : list HttpResource)
  : option HttpResource :=
  fold_left
    (fun page_ resource =>
       if bool_decide (url_ = url resource) then Some resource else page_)
    resources None.

(** [page_] is the last element of [resources] whose URL is [url_],
    and [None] when no element has that URL. *)
Definition last_with_url (url_ : string) (resources : list HttpResource)
    (page_ : option HttpResource) : Prop :=
  match page_ with
  | Some r =>
      exists before after,
        resources = before ++ r :: after
        /\ url r = url_
        /\ Forall (fun x => url x <> url_) after
  | None => Forall (fun x => url x <> url_) resources
  end.

Definition wait_for_page_loaded (fuel : nat)
  : M state (option HttpResource * list HttpResource) :=
  wait_for fuel (get loaded) "Unable to load requested page" ;;;
  resources <- _release_last_resources ;;
  url_ <- get (fun s => frame_url E (page s)) ;;
  ret (find_page url_ resources, resources).

Definition wait_for_alert (fuel : nat)
  : M state (option string * list HttpResource) :=
  wait_for fuel (get (fun s => bool_decide (_alert s <> None)))
    "User has not been alerted." ;;;
  msg <- get _alert ;;
  modify (set_alert None) ;;;
  resources <- _release_last_resources ;;
  ret (msg, resources).

(** [exists] is a keyword here, hence the underscore. *)
Definition exists_ (selector : string) : M state bool :=
  get (fun s => negb (isNull E (findFirstElement E selector (page s)))).

Definition wait_for_selector (fuel : nat) (selector : string)
  : M state (bool * list HttpResource) :=
  wait_for fuel (exists_ selector)
    ("Can't find element matching " +:+ dq +:+ selector +:+ dq) ;;;
  resources <- _release_last_resources ;;
  ret (true, resources).

(** [text in self.content] *)
Definition contains (text html : string) : bool :=
  match String.index 0 text html with
  | Some _ => true
  | None => false
  end.

Definition wait_for_text (fuel : nat) (text : string)
  : M state (bool * list HttpResource) :=
  wait_for fuel (get (fun s => contains text (toHtml E (page s))))
    ("Can't find " +:+ dq +:+ text +:+ dq +:+ " in current frame") ;;;
  resources <- _release_last_resources ;;
  ret (true, resources).

(** ** The [can_load_page] decorator *)

(** [wrapper(self, *args, **kwargs)]: the result is the function's own
    ([inl]) or, when [expect_loading] is true, what
    [wait_for_page_loaded] returns ([inr]). *)
Definition can_load_page {A} (fuel : nat) (func : M state A)
    (expect_loading : bool)
  : M state (A + (option HttpResource * list HttpResource)) :=
  if expect_loading then
    modify (set_loaded false) ;;;
    func ;;;
    r <- wait_for_page_loaded fuel ;;
    ret (inr r)
  else
    r <- func ;;
    ret (inl r).

(** ** Acting on the page *)

Definition nl : string := String "010"%char EmptyString.

(** Calling a decorated method without [expect_loading] runs the
    function itself (last line of the wrapper), so the calls the module
    makes internally are to the [_func] definitions below. *)
Definition evaluate_func (script : string)
  : M state (pyval * list HttpResource) :=
  v <- (fun s => let '(v, s1) := evaluateJavaScript E script s in (Return v, s1)) ;;
  resources <- _release_last_resources ;;
  ret (v, resources).

Definition evaluate (fuel : nat) (script : string) (expect_loading : bool) :=
  can_load_page fuel (evaluate_func script) expect_loading.

(** The script [click] evaluates, with the selector spliced in. *)
Definition click_script (selector : string) : string :=
  nl +:+
  "            var element = document.querySelector(" +:+ dq +:+ selector
    +:+ dq +:+ ");" +:+ nl +:+
  "            var evt = document.createEvent(" +:+ dq +:+ "MouseEvents"
    +:+ dq +:+ ");" +:+ nl +:+
  "            evt.initMouseEvent(" +:+ dq +:+ "click" +:+ dq
    +:+ ", true, true, window, 1, 1, 1, 1, 1," +:+ nl +:+
  "                false, false, false, false, 0, element);" +:+ nl +:+
  "            element.dispatchEvent(evt)" +:+ nl +:+
  "        ".

Definition click_func (selector : string)
  : M state (pyval * list HttpResource) :=
  found <- exists_ selector ;;
  if negb found then raise (Exception "Can't find element to click")
  else evaluate_func (click_script selector).

Definition click (fuel : nat) (selector : string) (expect_loading : bool) :=
  can_load_page fuel (click_func selector) expect_loading.

Definition fire_on_func (selector method : string)
  : M state (pyval * list HttpResource) :=
  evaluate_func ("document.querySelector(" +:+ dq +:+ selector +:+ dq +:+ ")."
                 +:+ method +:+ "();").

Definition fire_on (fuel : nat) (selector method : string)
    (expect_loading : bool) :=
  can_load_page fuel (fire_on_func selector method) expect_loading.

(** The helpers nested in [set_field_value]. *)
Definition _set_checkbox_value (el : element) (value : pyval) : M state unit :=
  modify (setFocus E el) ;;;
  match value with
  | VBool true => modify (setAttribute E el "checked" (VStr "checked"))
  | _ => modify (removeAttribute E el "checked")
  end.

Fixpoint _set_checkboxes_value (els : list element) (value : pyval)
  : M state unit :=
  match els with
  | [] => ret tt
  | el :: rest =>
      a <- get (fun s => attribute E el "value" (page s)) ;;
      (if py_eq_str value a
       then _set_checkbox_value el (VBool true)
       else _set_checkbox_value el (VBool false)) ;;;
      _set_checkboxes_value rest value
  end.

Fixpoint _set_radio_value (els : list element) (value : pyval)
  : M state unit :=
  match els with
  | [] => ret tt
  | el :: rest =>
      a <- get (fun s => attribute E el "value" (page s)) ;;
      (if py_eq_str value a
       then modify (setFocus E el) ;;;
            modify (setAttribute E el "checked" (VStr "checked"))
       else ret tt) ;;;
      _set_radio_value rest value
  end.

Definition _set_text_value (el : element) (value : pyval) : M state unit :=
  modify (setFocus E el) ;;;
  modify (setAttribute E el "value" value).

Definition _set_textarea_value (el : element) (value : pyval) : M state unit :=
  modify (setFocus E el) ;;;
  modify (setPlainText E el value).

(** The input types filled in as text. *)
Definition text_input_types : list string :=
  ["color"; "date"; "datetime"; "datetime-local"; "email"; "hidden";
   "month"; "number"; "password"; "range"; "search"; "tel"; "text";
   "time"; "url"; "week"].

(** [set_field_value(selector, value, blur)].  The list returned is the
    one bound to [ressources] on the first line, which nothing extends:
    the [file] branch binds the resources of the click to another
    name. *)
Definition set_field_value_func (selector : string) (value : pyval)
    (blur : bool) : M state (pyval * list HttpResource) :=
  el <- get (fun s => findFirstElement E selector (page s)) ;;
  if isNull E el
  then raise (Exception ("can't find element for " +:+ selector +:+ dq))
  else
    tag <- get (fun s => tagName E el (page s)) ;;
    res <-
      (if bool_decide (tag = "SELECT") then
         _set_text_value el value ;;; ret VNone
       else if bool_decide (tag = "TEXTAREA") then
         _set_textarea_value el value ;;; ret VNone
       else if bool_decide (tag = "INPUT") then
         ty <- get (fun s => attribute E el "type" (page s)) ;;
         if bool_decide (ty ∈ text_input_types) then
           _set_text_value el value ;;; ret VNone
         else if bool_decide (ty = "checkbox") then
           els <- get (fun s => findAllElements E selector (page s)) ;;
           (if (1 <? length els)%nat
            then _set_checkboxes_value els value
            else _set_checkbox_value el value) ;;;
           ret VNone
         else if bool_decide (ty = "radio") then
           els <- get (fun s => findAllElements E selector (page s)) ;;
           _set_radio_value els value ;;;
           ret VNone
         else if bool_decide (ty = "file") then
           modify (set_upload_file value) ;;;
           r <- click_func selector ;;
           modify (set_upload_file VNone) ;;;
           ret (fst r)
         else ret VNone
       else raise (Exception "unsuported field tag")) ;;
    (if blur then fire_on_func selector "blur" ;;; ret tt else ret tt) ;;;
    ret (res, []).

Definition set_field_value (fuel : nat) (selector : string) (value : pyval)
    (blur expect_loading : bool) :=
  can_load_page fuel (set_field_value_func selector value blur) expect_loading.

(** The loop of [fill] over the fields still to be set; [values] is
    the dict, as its items in iteration order. *)
Fixpoint fill_fields (selector : string) (values : list (string * pyval))
    (resources : list HttpResource) : M state (list HttpResource) :=
  match values with
  | [] => ret resources
  | (field, v) :: rest =>
      r <- set_field_value_func (selector +:+ " [name=" +:+ field +:+ "]")
             v true ;;
      fill_fields selector rest (resources ++ snd r)
  end.

Definition fill_func (selector : string) (values : list (string * pyval))
  : M state (bool * list HttpResource) :=
  found <- exists_ selector ;;
  if negb found then raise (Exception "Can't find form")
  else
    resources <- fill_fields selector values [] ;;
    ret (true, resources).

Definition fill (fuel : nat) (selector : string)
    (values : list (string * pyval)) (expect_loading : bool) :=
  can_load_page fuel (fill_func selector values) expect_loading.

(** [open(address, method, headers, auth, body)]: [body or QByteArray()]
    is the empty byte string when no body is given. *)
Definition open (fuel : nat) (address method : string)
    (headers_ : list (string * string)) (auth : option (string * string))
    (body : option string)
  : M state (option HttpResource * list HttpResource) :=
  let body_ := match body with
               | Some b => b
               | None => EmptyString
               end in
  match QNetworkAccessManager_attr E (capitalize method +:+ "Operation") with
  | None => raise (Exception ("Invalid http method " +:+ method))
  | Some operation =>
      modify (set_auth auth 0) ;;;
      modify (frame_load E (mkRequest address headers_) operation body_) ;;;
      modify (set_loaded false) ;;;
      wait_for_page_loaded fuel
  end.

(** ** Calls on a session *)

(** The calls a script makes on the session, and the ones the engine
    makes back (hooks and slots). *)
Inductive api_call : Type :=
  | call_page_loaded
  | call_page_load_started
  | call_request_ended (reply : QNetworkReply)
  | call_unsupported_content (reply : QNetworkReply)
  | call_release_last_resources
  | call_dialog (d : dialog)
  | call_confirm_enter (confirm : pyval) (callback : option callable)
  | call_confirm_exit
  | call_prompt_enter (value : pyval) (callback : option callable)
  | call_prompt_exit
  | call_wait_for_page_loaded
  | call_wait_for_alert
  | call_wait_for_selector (selector : string)
  | call_wait_for_text (text : string)
  | call_open (address method : string) (headers_ : list (string * string))
      (auth : option (string * string)) (body : option string)
  | call_click (selector : string) (expect_loading : bool)
  | call_evaluate (script : string) (expect_loading : bool)
  | call_fill (selector : string) (values : list (string * pyval))
      (expect_loading : bool)
  | call_fire_on (selector method : string) (expect_loading : bool)
  | call_set_field_value (selector : string) (value : pyval)
      (blur expect_loading : bool).

(** The state a call leaves, however it ends. *)
Definition run (fuel : nat) (c : api_call) (s : state) : state :=
  match c with
  | call_page_loaded => snd (_page_loaded s)
  | call_page_load_started => snd (_page_load_started s)
  | call_request_ended reply => snd (_request_ended reply s)
  | call_unsupported_content reply => snd (_unsupported_content reply s)
  | call_release_last_resources => snd (_release_last_resources s)
  | call_dialog d => fire d s
  | call_confirm_enter v cb => snd (confirm__enter__ v cb s)
  | call_confirm_exit => snd (confirm__exit__ s)
  | call_prompt_enter v cb => snd (prompt__enter__ v cb s)
  | call_prompt_exit => snd (prompt__exit__ s)
  | call_wait_for_page_loaded => snd (wait_for_page_loaded fuel s)
  | call_wait_for_alert => snd (wait_for_alert fuel s)
  | call_wait_for_selector selector => snd (wait_for_selector fuel selector s)
  | call_wait_for_text text => snd (wait_for_text fuel text s)
  | call_open address method hs auth body =>
      snd (open fuel address method hs auth body s)
  | call_click selector el => snd (click fuel selector el s)
  | call_evaluate script el => snd (evaluate fuel script el s)
  | call_fill selector values el => snd (fill fuel selector values el s)
  | call_fire_on selector method el => snd (fire_on fuel selector method el s)
  | call_set_field_value selector value blur el =>
      snd (set_field_value fuel selector value blur el s)
  end.

(** The calls that assign [self.loaded], with the value they assign:
    the two slots, [open], and the decorated methods when called with
    [expect_loading=True]. *)
Definition writes_loaded (c : api_call) : option bool :=
  match c with
  | call_page_loaded => Some true
  | call_page_load_started => Some false
  | call_open _ _ _ _ _ => Some false
  | call_click _ true
  | call_evaluate _ true
  | call_fill _ _ true
  | call_fire_on _ _ true
  | call_set_field_value _ _ _ true => Some false
  | _ => None
  end.

(** A method that leaves the load flag as it found it. *)
Definition keeps_loaded {A} (m : M state A) : Prop :=
  forall s, loaded (snd (m s)) = loaded s.

(** An engine that calls no slot while it runs: none of its operations
    changes the load flag. *)
Record quiet_engine : Prop := mkQuiet {
  quiet_setFocus : forall el s, loaded (setFocus E el s) = loaded s;
  quiet_setAttribute :
    forall el name v s, loaded (setAttribute E el name v s) = loaded s;
  quiet_removeAttribute :
    forall el name s, loaded (removeAttribute E el name s) = loaded s;
  quiet_setPlainText :
    forall el v s, loaded (setPlainText E el v s) = loaded s;
  quiet_evaluateJavaScript :
    forall script s, loaded (snd (evaluateJavaScript E script s)) = loaded s;
  quiet_frame_load :
    forall request operation body s,
      loaded (frame_load E request operation body s) = loaded s;
  quiet_processEvents : forall s, loaded (processEvents E s) = loaded s
}.

End Ghost.

(** ** A static page, for running the definitions

    The page has a URL and a few elements, each found by one selector
    and carrying a tag name.  Nothing happens on this page: no script
    has an effect, no signal is ever delivered, no time passes inside
    the engine. *)

Record static_page : Type := mkPage {
  page_url : string;
  page_elements : list (string * string)
}.

Fixpoint lookup_element (selector : string) (els : list (string * string))
  : option string :=
  match els with
  | [] => None
  | (sel, tag) :: rest =>
      if bool_decide (sel = selector) then Some tag
      else lookup_element selector rest
  end.

Definition static_state : Type := @state static_page nat nat.

Definition http_operations : list string :=
  ["HeadOperation"; "GetOperation"; "PutOperation"; "PostOperation";
   "DeleteOperation"; "CustomOperation"].

Definition static_engine : @engine static_page (option string) nat nat :=
  {| findFirstElement := fun selector d => lookup_element selector (page_elements d);
     findAllElements := fun selector d =>
       match lookup_element selector (page_elements d) with
       | Some tag => [Some tag]
       | None => []
       end;
     isNull := fun el => match el with Some _ => false | None => true end;
     tagName := fun el _ => match el with Some tag => tag | None => EmptyString end;
     attribute := fun _ _ _ => EmptyString;
     setFocus := fun _ s => s;
     setAttribute := fun _ _ _ s => s;
     removeAttribute := fun _ _ s => s;
     setPlainText := fun _ _ s => s;
     evaluateJavaScript := fun _ s => (VNone, s);
     frame_url := page_url;
     toHtml := fun _ => EmptyString;
     frame_load := fun _ _ _ s => s;
     QNetworkAccessManager_attr := fun name =>
       if bool_decide (name ∈ http_operations) then Some name else None;
     processEvents := fun s => s |}.

(** Three client callables, numbered.  Callable 0 raises the first time
    it is called and answers afterwards; callable 1 answers a string;
    callable 2 answers [False].  The client's state counts the calls. *)
Definition call_client (c : nat) (calls : nat) : outcome pyval * nat :=
  match c with
  | O => match calls with
         | O => (Raise (Exception "not ready"), 1%nat)
         | S _ => (Return (VStr "later"), S calls)
         end
  | 1%nat => (Return (VStr "typed"), S calls)
  | _ => (Return (VBool false), S calls)
  end.

(** The state [Ghost.__init__] leaves, on a given page.  [__init__]
    does not assign [_auth] and [_auth_attempt]: the two attributes
    exist from the first [open] on, which assigns both, and the values
    given here stand for attributes not read before that. *)
Definition initial (d : static_page) : static_state :=
  {| _alert := None; _confirm_expected := None; _prompt_expected := None;
     _upload_file := VNone; http_resources := []; loaded := true;
     cache := ∅; _auth := None; _auth_attempt := 0; page := d; now := 0;
     user := O; fired := []; log := [] |}.

Definition example_page : static_page :=
  {| page_url := "http://localhost/form";
     page_elements := [("#go", "BUTTON"); ("form", "FORM")] |}.

(** A session that gives up after 30 ms and has no wait callback. *)
Definition impatient : @ghost nat :=
  {| wait_timeout := 30; wait_callback := None |}.

Definition example_reply (u : string) (status : option Z) : QNetworkReply :=
  {| reply_url := u; reply_status := status;
     rawHeaderList := ["Content-Type"];
     rawHeader := fun _ => "text/html";
     readAll := "<html></html>" |}.

(** A reply without HTTP status, as for a local file. *)
Definition local_file_reply : QNetworkReply :=
  example_reply "file:///tmp/page.html" None.

(** Three signals between two drains: a page, a local file, a download. *)
Definition example_signals : list signal :=
  [finished (example_reply "http://localhost/form" (Some 200));
   finished local_file_reply;
   unsupportedContent (example_reply "http://localhost/report.pdf" (Some 200))].

(** A session whose cache holds the body of the form page. *)
Definition cached_state : static_state :=
  set_cache {[ "http://localhost/form" := "<html>form</html>" ]}
    (initial example_page).

Definition resource_at (u body : string) : HttpResource :=
  {| url := u; content := Some (PyUnicode body); http_status := Some 200;
     headers := ∅; _reply := example_reply u (Some 200) |}.

(** A loaded session with four resources in its buffer; the second and
    the fourth have the URL of the page. *)
Definition example_resources : list HttpResource :=
  [resource_at "http://localhost/" "redirect";
   resource_at "http://localhost/form" "first";
   resource_at "http://localhost/style.css" "css";
   resource_at "http://localhost/form" "second"].

Definition loaded_state : static_state :=
  set_http_resources example_resources (initial example_page).

(** The same buffer on a page whose URL none of the resources has. *)
Definition redirected_state : static_state :=
  set_http_resources example_resources
    (initial {| page_url := "http://localhost/elsewhere"; page_elements := [] |}).

(** A session that waits for a page: the load flag is false. *)
Definition waiting_state : static_state :=
  set_loaded false (initial example_page).

(** A session with both expectations set, each with a callback. *)
Definition expecting_state : static_state :=
  set_confirm_expected (Some (VBool true, Some 2%nat))
    (set_prompt_expected (Some (VStr "fixed", Some 1%nat))
       (initial example_page)).

(** A session with a prompt expectation without callback. *)
Definition expecting_fixed_state : static_state :=
  set_prompt_expected (Some (VStr "fixed", None)) (initial example_page).

(** The page prompts twice. *)
Definition two_prompts : list dialog :=
  [PromptDialog "Name?" EmptyString None; PromptDialog "Name?" EmptyString None].

(** The page asks for confirmation twice. *)
Definition two_confirms : list dialog :=
  [ConfirmDialog "Leave?"; ConfirmDialog "Leave?"].

(** ** The rest of the session: file upload, globals, authentication *)

(** What [_authenticate] sets on the [QAuthenticator] it is handed. *)
Record QAuthenticator : Type := mkAuthenticator {
  authenticator_user : string;
  authenticator_password : string
}.

(** Raised by the unpacking [username, password = self._auth] when
    [self._auth] is [None]. *)
Definition TypeError (msg : string) : pyexc :=
  {| exc_class := "TypeError"; exc_message := msg |}.

Section Session.

Context {DOM element callable client : Type}.
Variable E : @engine DOM element callable client.

Local Abbreviation state := (@state DOM callable client).

(** [GhostWebPage.chooseFile]: the file the engine's file dialog
    answers with. *)
Definition chooseFile : M state pyval := get _upload_file.

(** [global_exists(global_name)]: the first component of what
    [evaluate] returns. *)
Definition global_exists (global_name : string) : M state pyval :=
  r <- evaluate_func E ("!(typeof " +:+ global_name +:+ " === " +:+ dq
                        +:+ "undefined" +:+ dq +:+ ");") ;;
  ret (fst r).

(** [_authenticate(mix, authenticator)], the slot of both
    authentication signals, in a session that has called [open] (the
    attributes it reads are assigned there and nowhere else); the
    authenticator returned is the one passed in, after the calls to
    [setUser] and [setPassword]. *)
Definition _authenticate (authenticator : QAuthenticator)
  : M state QAuthenticator :=
  attempt <- get _auth_attempt ;;
  if attempt =? 0 then
    credentials <- get _auth ;;
    match credentials with
    | None => raise (TypeError "'NoneType' object is not iterable")
    | Some (username, password) =>
        modify (fun s => set_auth (_auth s) (_auth_attempt s + 1) s) ;;;
        ret {| authenticator_user := username;
               authenticator_password := password |}
    end
  else ret authenticator.

(** A predicate on the state that a turn of the wait loop cannot make
    true by itself: it does not depend on the clock, on the client's
    state or on the record of calls, and pumping the event loop leaves
    it false. *)
Record stays_false (f : state -> bool) : Prop := mkStaysFalse {
  stays_false_clock : forall z s, f (set_now z s) = f s;
  stays_false_user : forall u s, f (set_user u s) = f s;
  stays_false_fired : forall l s, f (set_fired l s) = f s;
  stays_false_events : forall s, f s = false -> f (processEvents E s) = false
}.

(** What the toolkit does with a run of signals: each signal runs its
    slot; an exception raised in a slot is reported by the binding and
    ends that slot only, the signals after it are delivered all the
    same. *)
Definition deliver_all (sigs : list signal) (s : state) : state :=
  fold_left (fun acc sig => snd (dispatch sig acc)) sigs s.

End Session.

Section Polls.

Context {DOM element callable client : Type}.
Variable call : callable -> client -> outcome pyval * client.
Variable E : @engine DOM element callable client.
Variable self : @ghost callable.

Local Abbreviation state := (@state DOM callable client).

(** What the loop of [wait_for] does between two polls of the
    condition: the sleep, the event pump, and the wait callback when
    there is one. *)
Definition wait_turn : M state unit :=
  time_sleep 10 ;;;
  modify (processEvents E) ;;;
  match wait_callback self with
  | Some cb => invoke call cb ;;; ret tt
  | None => ret tt
  end.

(** A condition that does not become true while the wait lasts: [inv]
    holds of the states the loop goes through.  Where it holds the
    condition is false, and polling the condition and a turn of the
    loop keep it. *)
Record stays_false_during (condition : M state bool) (inv : state -> Prop)
  : Prop := mkDuring {
  during_false : forall s, inv s -> fst (condition s) = Return false;
  during_poll : forall s, inv s -> inv (snd (condition s));
  during_turn : forall s, inv s -> inv (snd (wait_turn s))
}.

End Polls.

Definition is_load_signal (sig : signal) : Prop :=
  match sig with
  | loadFinished | loadStarted => True
  | unsupportedContent _ | finished _ => False
  end.

(** A header name or value that [unicode] refuses. *)
Definition undecodable_header (reply : QNetworkReply) (h : string) : Prop :=
  is_ascii h = false \/ is_ascii (rawHeader reply h) = false.

(** A reply all of whose header names and values are ASCII. *)
Definition decodable_headers (reply : QNetworkReply) : Prop :=
  Forall (fun h => ~ undecodable_header reply h) (rawHeaderList reply).

(** Whether the header loop of [HttpResource.__init__] goes through. *)
Definition headers_decode (reply : QNetworkReply) : bool :=
  match read_headers reply (rawHeaderList reply) ∅ with
  | inr _ => true
  | inl _ => false
  end.

(** The reply a signal leaves a record of: as [recorded_reply], and
    the constructor of the record must have returned. *)
Definition kept_reply (sig : signal) : option QNetworkReply :=
  match recorded_reply sig with
  | Some reply => if headers_decode reply then Some reply else None
  | None => None
  end.

(** A signal whose reply, if it is one [recorded_reply] selects, has
    headers that decode. *)
Definition signal_decodes (sig : signal) : Prop :=
  match recorded_reply sig with
  | Some reply => decodable_headers reply
  | None => True
  end.

(** ** A page with typed fields, for running the form methods

    Each element is found by a selector and has a tag name, a [type]
    attribute and a [value] attribute; several elements may share a
    selector.  As on the static page, nothing happens on this page. *)

Record field : Type := mkField {
  field_tag : string;
  field_type : string;
  field_value : string
}.

Definition form_page : Type := list (string * field).

Definition fields_at (selector : string) (d : form_page) : list field :=
  map snd (filter (fun entry => bool_decide (fst entry = selector)) d).

Definition form_state : Type := @state form_page nat nat.

Definition form_engine : @engine form_page (option field) nat nat :=
  {| findFirstElement := fun selector d => head (fields_at selector d);
     findAllElements := fun selector d => map Some (fields_at selector d);
     isNull := fun el => match el with Some _ => false | None => true end;
     tagName := fun el _ =>
       match el with Some f => field_tag f | None => EmptyString end;
     attribute := fun el name _ =>
       match el with
       | Some f =>
           if bool_decide (name = "type") then field_type f
           else if bool_decide (name = "value") then field_value f
           else EmptyString
       | None => EmptyString
       end;
     setFocus := fun _ s => s;
     setAttribute := fun _ _ _ s => s;
     removeAttribute := fun _ _ s => s;
     setPlainText := fun _ _ s => s;
     evaluateJavaScript := fun _ s => (VNone, s);
     frame_url := fun _ => "http://localhost/form";
     toHtml := fun _ => EmptyString;
     frame_load := fun _ _ _ s => s;
     QNetworkAccessManager_attr := fun name =>
       if bool_decide (name ∈ http_operations) then Some name else None;
     processEvents := fun s => s |}.

(** The same page on which a load finishes whenever the event loop is
    pumped: the page's reply arrives, then the load-finished signal. *)
Definition loading_engine : @engine form_page (option field) nat nat :=
  {| findFirstElement := findFirstElement form_engine;
     findAllElements := findAllElements form_engine;
     isNull := isNull form_engine;
     tagName := tagName form_engine;
     attribute := attribute form_engine;
     setFocus := setFocus form_engine;
     setAttribute := setAttribute form_engine;
     removeAttribute := removeAttribute form_engine;
     setPlainText := setPlainText form_engine;
     evaluateJavaScript := evaluateJavaScript form_engine;
     frame_url := frame_url form_engine;
     toHtml := toHtml form_engine;
     frame_load := frame_load form_engine;
     QNetworkAccessManager_attr := QNetworkAccessManager_attr form_engine;
     processEvents :=
       deliver_all [finished (example_reply "http://localhost/done" (Some 200));
                    loadFinished] |}.

Definition example_form : form_page :=
  [("form", mkField "FORM" EmptyString EmptyString);
   ("form [name=colour]", mkField "INPUT" "radio" "red");
   ("form [name=colour]", mkField "INPUT" "radio" "green");
   ("form [name=photo]", mkField "INPUT" "file" EmptyString);
   ("form [name=send]", mkField "INPUT" "submit" "Send");
   ("form [name=user]", mkField "INPUT" "text" EmptyString);
   ("#banner", mkField "DIV" EmptyString EmptyString)].

(** The state [Ghost.__init__] leaves on the form page, with two
    resources waiting in the buffer. *)
Definition form_session : form_state :=
  {| _alert := None; _confirm_expected := None; _prompt_expected := None;
     _upload_file := VNone;
     http_resources := [resource_at "http://localhost/form" "form";
                        resource_at "http://localhost/style.css" "css"];
     loaded := true; cache := ∅; _auth := None; _auth_attempt := 0;
     page := example_form; now := 0; user := O; fired := []; log := [] |}.


(** A reply one of whose header values is not ASCII. *)
Definition latin1_reply : QNetworkReply :=
  {| reply_url := "http://localhost/latin1"; reply_status := Some 200;
     rawHeaderList := ["Content-Type"; "X-Author"];
     rawHeader := fun h =>
       if bool_decide (h = "X-Author")
       then String (ascii_of_nat 233) EmptyString
       else "text/html";
     readAll := EmptyString |}.

(** A session whose cache holds a body that is not ASCII. *)
Definition latin1_cached : static_state :=
  set_cache {[ "http://localhost/form" := String (ascii_of_nat 233) "t" ]}
    (set_http_resources example_resources (initial example_page)).

(** * Properties *)

Section Dialogs.

Context {DOM callable client : Type}.
Variable call : callable -> client -> outcome pyval * client.

Local Abbreviation state := (@state DOM callable client).
Implicit Types (s : state) (msg : string).

(** ** What each hook does, case by case *)

Lemma javaScriptConfirm_unset msg s :
  _confirm_expected s = None ->
  javaScriptConfirm call msg s =
    (Raise (Exception ("You must specified a value to confirm "
                       +:+ dq +:+ msg +:+ dq)), s).
Proof.
  intros Hslot. unfold javaScriptConfirm, bind, get. now rewrite Hslot.
Qed.

Lemma javaScriptConfirm_set msg s value callback :
  _confirm_expected s = Some (value, callback) ->
  javaScriptConfirm call msg s =
    let s1 := logged info "Frame" ("confirm('" +:+ msg +:+ "')")
                (set_confirm_expected None s) in
    match callback with
    | Some c => invoke call c s1
    | None => (Return value, s1)
    end.
Proof.
  intros Hslot. unfold javaScriptConfirm, bind, get. rewrite Hslot.
  destruct callback; reflexivity.
Qed.

Lemma javaScriptPrompt_unset msg dv result s :
  _prompt_expected s = None ->
  javaScriptPrompt call msg dv result s =
    (Raise (Exception ("You must specified a value for prompt "
                       +:+ dq +:+ msg +:+ dq)), s).
Proof.
  intros Hslot. unfold javaScriptPrompt, bind, get. now rewrite Hslot.
Qed.

Lemma invoke_fst c s : fst (invoke call c s) = fst (call c (user s)).
Proof. unfold invoke. now destruct (call c (user s)). Qed.

Lemma invoke_confirm_slot c s :
  _confirm_expected (snd (invoke call c s)) = _confirm_expected s.
Proof. unfold invoke. now destruct (call c (user s)). Qed.

Lemma invoke_prompt_slot c s :
  _prompt_expected (snd (invoke call c s)) = _prompt_expected s.
Proof. unfold invoke. now destruct (call c (user s)). Qed.

Lemma invoke_fired c s : fired (snd (invoke call c s)) = fired s ++ [c].
Proof. unfold invoke. now destruct (call c (user s)). Qed.

Lemma javaScriptConfirm_answer msg s value callback answer :
  _confirm_expected s = Some (value, callback) ->
  answers call callback value answer s ->
  fst (javaScriptConfirm call msg s) = Return answer.
Proof.
  intros Hslot Hans. rewrite (javaScriptConfirm_set _ _ _ _ Hslot).
  destruct callback as [c|]; cbn in *.
  - now rewrite invoke_fst.
  - now subst.
Qed.

(** The full result of the prompt hook on an expectation whose answer
    is [answer]. *)
Lemma javaScriptPrompt_answer msg dv result s value callback answer :
  _prompt_expected s = Some (value, callback) ->
  answers call callback value answer s ->
  fst (javaScriptPrompt call msg dv result s) =
    Return match result with
           | None => (RetPair true answer, None)
           | Some l => (RetBool true, Some (l ++ [answer]))
           end
  /\ _prompt_expected (snd (javaScriptPrompt call msg dv result s)) = None.
Proof.
  intros Hslot Hans. unfold javaScriptPrompt, bind, get. rewrite Hslot.
  cbn. destruct callback as [c|]; cbn in Hans.
  - unfold invoke; cbn. destruct (call c (user s)) as [r u]; cbn in Hans.
    subst r. destruct (py_eq_str answer EmptyString), result; cbn; auto.
  - subst answer. cbn.
    destruct (py_eq_str value EmptyString), result; cbn; auto.
Qed.

(** ** Expectations are single-use *)

Lemma confirm_slot_after_hook msg s :
  _confirm_expected (snd (javaScriptConfirm call msg s)) = None.
Proof.
  destruct (_confirm_expected s) as [[value callback]|] eqn:Hslot.
  - rewrite (javaScriptConfirm_set _ _ _ _ Hslot).
    destruct callback as [c|]; cbn; [|reflexivity].
    now rewrite invoke_confirm_slot.
  - now rewrite (javaScriptConfirm_unset _ _ Hslot).
Qed.

Lemma confirm_hook_fires_at_most_one msg s :
  (length (fired (snd (javaScriptConfirm call msg s))) <= S (length (fired s)))%nat.
Proof.
  destruct (_confirm_expected s) as [[value callback]|] eqn:Hslot.
  - rewrite (javaScriptConfirm_set _ _ _ _ Hslot).
    destruct callback as [c|]; cbn; [|lia].
    rewrite invoke_fired, length_app. cbn. lia.
  - rewrite (javaScriptConfirm_unset _ _ Hslot). cbn. lia.
Qed.

Lemma confirm_hook_unset_is_silent msg s :
  _confirm_expected s = None ->
  snd (javaScriptConfirm call msg s) = s.
Proof. intros Hslot. now rewrite (javaScriptConfirm_unset _ _ Hslot). Qed.

Lemma fire_all_cons (d : dialog) (ds : list dialog) s :
  fire_all call (d :: ds) s = fire_all call ds (fire call d s).
Proof. reflexivity. Qed.

Lemma confirm_dialogs_unset_are_silent (ds : list dialog) s :
  Forall is_confirm ds ->
  _confirm_expected s = None ->
  fire_all call ds s = s.
Proof.
  intros Hds. revert s. induction Hds as [|d ds Hd _ IH]; intros s Hslot.
  - reflexivity.
  - destruct d; try contradiction. rewrite fire_all_cons.
    unfold fire. rewrite confirm_hook_unset_is_silent by assumption.
    now apply IH.
Qed.

(** However many times the page asks for confirmation inside one
    [with ghost.confirm(...)] block, and whatever the callback does
    (return or raise), the callback is called at most once, and the
    slot is empty once the first dialog has been handled. *)
Lemma confirm_callback_at_most_once (ds : list dialog) confirm callback s :
  Forall is_confirm ds ->
  let s' := fire_all call ds (snd (confirm__enter__ confirm callback s)) in
  (length (fired s') <= S (length (fired s)))%nat
  /\ (ds <> [] -> _confirm_expected s' = None).
Proof.
  intros Hds. destruct Hds as [|d ds Hd Hds].
  - cbn. split; [lia | congruence].
  - destruct d; try contradiction. rewrite fire_all_cons. unfold fire.
    rewrite (confirm_dialogs_unset_are_silent ds) by
      (assumption || apply confirm_slot_after_hook).
    split; [|intros _; apply confirm_slot_after_hook].
    apply (confirm_hook_fires_at_most_one msg
             (set_confirm_expected (Some (confirm, callback)) s)).
Qed.

(** The slot is empty when a [with] block is left, however its body
    ended. *)
Lemma with_confirm_clears {A} confirm callback (body : M state A) s :
  _confirm_expected (snd (with_confirm confirm callback body s)) = None.
Proof.
  unfold with_confirm, with_block, confirm__enter__, confirm__exit__, modify.
  now destruct (body _).
Qed.

Lemma with_prompt_clears {A} value callback (body : M state A) s :
  _prompt_expected (snd (with_prompt value callback body s)) = None.
Proof.
  unfold with_prompt, with_block, prompt__enter__, prompt__exit__, modify.
  now destruct (body _).
Qed.

(** When the callback raises, the prompt hook is left before the line
    that resets the slot: the expectation is still there for the next
    dialog.  (The confirm hook has reset its slot by then, see
    [confirm_slot_after_hook].) *)
Lemma prompt_slot_survives_raise msg dv result s value c e :
  _prompt_expected s = Some (value, Some c) ->
  fst (call c (user s)) = Raise e ->
  fst (javaScriptPrompt call msg dv result s) = Raise e
  /\ _prompt_expected (snd (javaScriptPrompt call msg dv result s))
     = Some (value, Some c).
Proof.
  intros Hslot Hraise. unfold javaScriptPrompt, bind, get. rewrite Hslot.
  cbn. unfold invoke. cbn.
  destruct (call c (user s)) as [r u]. cbn in Hraise. subst r. cbn.
  split; [reflexivity | exact Hslot].
Qed.

(** A prompt whose callback returns is handled once: the slot is empty
    afterwards, and the next prompt is refused without a call. *)
Lemma prompt_consumed_once msg dv result msg' dv' result' s value callback answer :
  _prompt_expected s = Some (value, callback) ->
  answers call callback value answer s ->
  let s1 := snd (javaScriptPrompt call msg dv result s) in
  _prompt_expected s1 = None
  /\ snd (javaScriptPrompt call msg' dv' result' s1) = s1.
Proof.
  intros Hslot Hans s1.
  destruct (javaScriptPrompt_answer msg dv result s _ _ _ Hslot Hans) as [_ Hnone].
  split; [exact Hnone|].
  now rewrite (javaScriptPrompt_unset _ _ _ _ Hnone).
Qed.

End Dialogs.

Section DialogClaims.

Context {DOM callable client : Type}.
Variable call : callable -> client -> outcome pyval * client.

Local Abbreviation state := (@state DOM callable client).
Implicit Types (s : state) (msg : string).

(** C4, as amended.  The confirm hook and the prompt hook fail with an
    exception, leaving the state as it was, when their expectation slot
    is [None].  The alert hook has no expectation to consult: it never
    fails, it stores the message in [Ghost._alert]. *)
Theorem dialog_without_expectation (d : dialog) s :
  match d with
  | AlertDialog msg =>
      fst (javaScriptAlert msg s) = Return tt
      /\ _alert (snd (javaScriptAlert msg s)) = Some msg
  | ConfirmDialog msg =>
      _confirm_expected s = None ->
      javaScriptConfirm call msg s =
        (Raise (Exception ("You must specified a value to confirm "
                           +:+ dq +:+ msg +:+ dq)), s)
  | PromptDialog msg dv result =>
      _prompt_expected s = None ->
      javaScriptPrompt call msg dv result s =
        (Raise (Exception ("You must specified a value for prompt "
                           +:+ dq +:+ msg +:+ dq)), s)
  end.
Proof.
  destruct d as [msg|msg|msg dv result].
  - split; reflexivity.
  - apply javaScriptConfirm_unset.
  - apply javaScriptPrompt_unset.
Qed.

(** C5.  For an expectation set with a callback, whatever the fixed
    value, the answer of the confirm hook and of the prompt hook is
    what the callback returns; for an expectation set without a
    callback it is the fixed value. *)
Theorem dialog_answer msg dv result s value callback :
  let answer_is (a : pyval) :=
    (_confirm_expected s = Some (value, callback) ->
     fst (javaScriptConfirm call msg s) = Return a)
    /\ (_prompt_expected s = Some (value, callback) ->
        exists r, fst (javaScriptPrompt call msg dv result s) = Return r
                  /\ prompt_answer r = Some a) in
  match callback with
  | Some c => forall a, fst (call c (user s)) = Return a -> answer_is a
  | None => answer_is value
  end.
Proof.
  assert (Hboth : forall a, answers call callback value a s ->
    (_confirm_expected s = Some (value, callback) ->
     fst (javaScriptConfirm call msg s) = Return a)
    /\ (_prompt_expected s = Some (value, callback) ->
        exists r, fst (javaScriptPrompt call msg dv result s) = Return r
                  /\ prompt_answer r = Some a)).
  { intros a Hans. split; intros Hslot.
    - now apply (javaScriptConfirm_answer call msg s value callback).
    - destruct (javaScriptPrompt_answer call msg dv result s _ _ _ Hslot Hans)
        as [Hres _].
      eexists. split; [exact Hres|].
      destruct result as [l|]; cbn; [|reflexivity].
      apply last_snoc. }
  destruct callback as [c|]; cbn.
  - intros a Hcall. now apply Hboth.
  - now apply Hboth.
Qed.

(** C8.  On an expectation that yields [answer], the prompt hook
    returns the pair [(True, answer)] when no [result] is passed, and
    returns [True] alone, having appended [answer] to the list, when a
    [result] list is passed. *)
Theorem prompt_result_shape msg dv s value callback answer :
  _prompt_expected s = Some (value, callback) ->
  answers call callback value answer s ->
  fst (javaScriptPrompt call msg dv None s) = Return (RetPair true answer, None)
  /\ forall l, fst (javaScriptPrompt call msg dv (Some l) s)
               = Return (RetBool true, Some (l ++ [answer])).
Proof.
  intros Hslot Hans. split; [|intros l].
  - apply (javaScriptPrompt_answer call msg dv None s _ _ _ Hslot Hans).
  - apply (javaScriptPrompt_answer call msg dv (Some l) s _ _ _ Hslot Hans).
Qed.

End DialogClaims.

(** C4, as stated, fails for the alert hook: with [Ghost._alert] unset
    the hook returns, it does not raise. *)
Lemma alert_without_expectation_returns :
  _alert (initial example_page) = None
  /\ ~ (exists e, fst (javaScriptAlert "hi" (initial example_page)) = Raise e).
Proof.
  split; [reflexivity|]. intros [e He]. discriminate He.
Qed.

Lemma dialog_without_expectation_witness :
  _confirm_expected (initial example_page) = None
  /\ _prompt_expected (initial example_page) = None
  /\ fst (javaScriptConfirm call_client "Leave?" (initial example_page))
     = Raise (Exception ("You must specified a value to confirm "
                         +:+ dq +:+ "Leave?" +:+ dq))
  /\ fst (javaScriptPrompt call_client "Name?" "anonymous" None
            (initial example_page))
     = Raise (Exception ("You must specified a value for prompt "
                         +:+ dq +:+ "Name?" +:+ dq)).
Proof.
  split; [reflexivity|]. split; [reflexivity|]. split.
  - rewrite (dialog_without_expectation call_client (ConfirmDialog "Leave?")
               (initial example_page)); reflexivity.
  - rewrite (dialog_without_expectation call_client
               (PromptDialog "Name?" "anonymous" None)
               (initial example_page)); reflexivity.
Defined.

Lemma dialog_answer_witness :
  fst (call_client 2 (user expecting_state)) = Return (VBool false)
  /\ fst (javaScriptConfirm call_client "Leave?" expecting_state)
     = Return (VBool false)
  /\ exists r,
       fst (javaScriptPrompt call_client "Name?" EmptyString None expecting_state)
       = Return r
       /\ prompt_answer r = Some (VStr "typed").
Proof.
  split; [reflexivity|]. split.
  - apply (dialog_answer call_client "Leave?" EmptyString None expecting_state
             (VBool true) (Some 2%nat) (VBool false)); reflexivity.
  - apply (dialog_answer call_client "Name?" EmptyString None expecting_state
             (VStr "fixed") (Some 1%nat) (VStr "typed")); reflexivity.
Defined.

Lemma prompt_result_shape_witness :
  _prompt_expected expecting_fixed_state = Some (VStr "fixed", None)
  /\ fst (javaScriptPrompt call_client "Name?" EmptyString None
            expecting_fixed_state)
     = Return (RetPair true (VStr "fixed"), None)
  /\ fst (javaScriptPrompt call_client "Name?" EmptyString (Some [VInt 7])
            expecting_fixed_state)
     = Return (RetBool true, Some [VInt 7; VStr "fixed"]).
Proof.
  split; [reflexivity|].
  destruct (prompt_result_shape call_client "Name?" EmptyString
              expecting_fixed_state (VStr "fixed") None (VStr "fixed")
              eq_refl eq_refl) as [Hpair Hlist].
  split; [exact Hpair | exact (Hlist [VInt 7])].
Defined.

(** C3, on the input where the code departs from it.  One
    [with ghost.prompt(callback=...)] block, during which the page
    prompts twice; the callback raises on its first call.  The prompt
    hook resets its slot only after the callback has returned, so the
    expectation survives the first dialog and the same callback is
    called again by the second. *)
Theorem prompt_callback_fires_twice :
  fired (snd (with_prompt (VStr "fixed") (Some O)
                (modify (fire_all call_client two_prompts))
                (initial example_page)))
  = [O; O].
Proof. reflexivity. Qed.

(** The confirm hook on the same input: the slot is reset before the
    callback is called, and the callback is called once. *)
Lemma confirm_callback_fires_once :
  fired (snd (with_confirm (VBool true) (Some O)
                (modify (fire_all call_client two_confirms))
                (initial example_page)))
  = [O].
Proof. reflexivity. Qed.

Section Resources.

Context {DOM callable client : Type}.

Local Abbreviation state := (@state DOM callable client).
Implicit Types (s : state) (reply : QNetworkReply).

Lemma release_last_resources_eq s :
  _release_last_resources s
  = (Return (http_resources s), set_http_resources [] s).
Proof. reflexivity. Qed.

(** A constructor call that returns has built the record from the
    reply, and only wrote a line to the log. *)
Lemma HttpResource_init_returns reply c body s r s1 :
  HttpResource__init__ reply c body s = (Return r, s1) ->
  _reply r = reply
  /\ describes_reply r
  /\ content r = match body with
                 | None => content_from_cache c (reply_url reply)
                 | Some b => Some b
                 end
  /\ http_resources s1 = http_resources s.
Proof.
  unfold HttpResource__init__, bind, Logger_log, modify. cbn.
  destruct (read_headers reply (rawHeaderList reply) ∅) as [e|hs]; cbn;
    intros Heq; [discriminate|].
  injection Heq as <- <-. unfold describes_reply. cbn.
  destruct body; auto.
Qed.

(** C9.  The load-finished slot returns with the flag set and the
    cache empty; a resource built from that cache without explicit
    content has no content, whatever the reply. *)
Theorem page_loaded_clears_cache s :
  _page_loaded s = (Return tt, set_cache ∅ (set_loaded true s))
  /\ loaded (snd (_page_loaded s)) = true
  /\ cache (snd (_page_loaded s)) = ∅
  /\ forall reply (t t1 : state) r,
       HttpResource__init__ reply (cache (snd (_page_loaded s))) None t
       = (Return r, t1) ->
       content r = None.
Proof.
  split; [reflexivity|]. split; [reflexivity|]. split; [reflexivity|].
  intros reply t t1 r Hinit.
  destruct (HttpResource_init_returns _ _ _ _ _ _ Hinit) as (_ & _ & Hc & _).
  rewrite Hc. cbn. unfold content_from_cache. now rewrite lookup_empty.
Qed.

(** The loop of [wait_for_page_loaded], one more resource at a time. *)
Lemma find_page_snoc (u : string) (rs : list HttpResource) (r : HttpResource) :
  find_page u (rs ++ [r])
  = if bool_decide (u = url r) then Some r else find_page u rs.
Proof. unfold find_page. now rewrite fold_left_app. Qed.

Lemma find_page_last (u : string) (rs : list HttpResource) :
  last_with_url u rs (find_page u rs).
Proof.
  induction rs as [|r rs IH] using rev_ind.
  - cbn. constructor.
  - rewrite find_page_snoc. case_bool_decide as Hu.
    + cbn. exists rs, []. auto.
    + destruct (find_page u rs) as [p|]; cbn in *.
      * destruct IH as (before & after & -> & Hp & Hafter).
        exists before, (after ++ [r]). rewrite <- app_assoc. cbn.
        split; [reflexivity|]. split; [assumption|].
        apply Forall_app. split; [assumption|].
        constructor; [congruence | constructor].
      * apply Forall_app. split; [assumption|].
        constructor; [congruence | constructor].
Qed.

End Resources.

Section Waiting.

Context {DOM element callable client : Type}.
Variable call : callable -> client -> outcome pyval * client.
Variable E : @engine DOM element callable client.
Variable self : @ghost callable.

Local Abbreviation state := (@state DOM callable client).
Implicit Types (s : state) (msg : string) (condition : M state bool).

Lemma invoke_now c s : now (snd (invoke call c s)) = now s.
Proof. unfold invoke. now destruct (call c (user s)). Qed.

(** One turn of the loop of [wait_for]. *)
Lemma wait_for_loop_step fuel condition msg started s :
  wait_for_loop call E self (S fuel) condition msg started s =
    match condition s with
    | (Return true, s1) => (Return tt, s1)
    | (Return false, s1) =>
        if started + wait_timeout self <? now s1
        then (Raise (Exception msg), s1)
        else
          let s2 := processEvents E (set_now (now s1 + 10) s1) in
          match wait_callback self with
          | Some cb =>
              match invoke call cb s2 with
              | (Return _, s3) =>
                  wait_for_loop call E self fuel condition msg started s3
              | (Raise e, s3) => (Raise e, s3)
              | (OutOfFuel, s3) => (OutOfFuel, s3)
              end
          | None => wait_for_loop call E self fuel condition msg started s2
          end
    | (Raise e, s1) => (Raise e, s1)
    | (OutOfFuel, s1) => (OutOfFuel, s1)
    end.
Proof.
  cbn [wait_for_loop]. unfold bind at 1.
  destruct (condition s) as [[[|]|e|] s1]; try reflexivity.
  unfold bind at 1. cbn.
  destruct (started + wait_timeout self <? now s1); [reflexivity|].
  unfold bind, modify, time_sleep, modify. cbn.
  destruct (wait_callback self) as [cb|]; [|reflexivity].
  unfold bind.
  now destruct (invoke call cb _) as [[v|e|] s3].
Qed.

(** More fuel does not change a run that ended. *)
Lemma wait_for_loop_more_fuel fuel condition msg started s :
  fst (wait_for_loop call E self fuel condition msg started s) <> OutOfFuel ->
  wait_for_loop call E self (S fuel) condition msg started s
  = wait_for_loop call E self fuel condition msg started s.
Proof.
  revert s. induction fuel as [|fuel IH]; intros s Hended.
  - now contradict Hended.
  - rewrite (wait_for_loop_step (S fuel)).
    rewrite wait_for_loop_step in Hended |- *.
    destruct (condition s) as [[[|]|e|] s1]; try reflexivity.
    destruct (started + wait_timeout self <? now s1); [reflexivity|].
    cbn zeta in *. destruct (wait_callback self) as [cb|]; [|now apply IH].
    destruct (invoke call cb _) as [[v|e|] s3]; try reflexivity.
    now apply IH.
Qed.

Lemma wait_for_loop_enough_fuel fuel fuel' condition msg started s :
  (fuel <= fuel')%nat ->
  fst (wait_for_loop call E self fuel condition msg started s) <> OutOfFuel ->
  wait_for_loop call E self fuel' condition msg started s
  = wait_for_loop call E self fuel condition msg started s.
Proof.
  intros Hle Hended. induction Hle as [|fuel' Hle IH]; [reflexivity|].
  rewrite wait_for_loop_more_fuel; [exact IH | now rewrite IH].
Qed.

(** A turn of the loop, spelled out. *)
Lemma wait_turn_eq s :
  wait_turn call E self s =
    let s2 := processEvents E (set_now (now s + 10) s) in
    match wait_callback self with
    | Some cb =>
        match invoke call cb s2 with
        | (Return _, s3) => (Return tt, s3)
        | (Raise e, s3) => (Raise e, s3)
        | (OutOfFuel, s3) => (OutOfFuel, s3)
        end
    | None => (Return tt, s2)
    end.
Proof.
  unfold wait_turn, bind at 1, time_sleep, modify at 1. cbv beta iota.
  unfold bind at 1, modify at 1. cbv beta iota zeta.
  destruct (wait_callback self) as [cb|]; [|reflexivity].
  unfold bind. now destruct (invoke call cb _) as [[v|e|] s3].
Qed.

Lemma wait_turn_returns s :
  wait_callback_returns call self ->
  fst (wait_turn call E self s) = Return tt.
Proof.
  intros Hcallback. rewrite wait_turn_eq. cbv zeta.
  destruct (wait_callback self) as [cb|] eqn:Hcb; [|reflexivity].
  destruct (Hcallback cb Hcb (user (processEvents E (set_now (now s + 10) s))))
    as [v Hv].
  rewrite <- invoke_fst in Hv.
  destruct (invoke call cb _) as [r s3]. cbn in Hv. now subst r.
Qed.

(** A turn lasts at least its sleep, when the pump does not set the
    clock back. *)
Lemma wait_turn_clock s :
  clock_goes_forward (processEvents E) ->
  now s + 10 <= now (snd (wait_turn call E self s)).
Proof.
  intros Hclock. rewrite wait_turn_eq. cbv zeta.
  pose proof (Hclock (set_now (now s + 10) s)) as Hev. cbn in Hev.
  destruct (wait_callback self) as [cb|]; [|exact Hev].
  pose proof (invoke_now cb (processEvents E (set_now (now s + 10) s))) as Hnow.
  destruct (invoke call cb _) as [[v|e|] s3]; cbn in *; lia.
Qed.

(** A poll that finds the condition false: the loop raises when the
    clock is beyond the deadline, and otherwise goes on from the state
    the turn leaves. *)
Lemma wait_for_loop_late fuel condition msg started s :
  fst (condition s) = Return false ->
  (started + wait_timeout self <? now (snd (condition s))) = true ->
  wait_for_loop call E self (S fuel) condition msg started s
  = (Raise (Exception msg), snd (condition s)).
Proof.
  intros Hfalse Hlate. rewrite wait_for_loop_step.
  destruct (condition s) as [r s1]. cbn [fst snd] in *. subst r.
  now rewrite Hlate.
Qed.

Lemma wait_for_loop_turn fuel condition msg started s :
  fst (condition s) = Return false ->
  (started + wait_timeout self <? now (snd (condition s))) = false ->
  fst (wait_turn call E self (snd (condition s))) = Return tt ->
  wait_for_loop call E self (S fuel) condition msg started s
  = wait_for_loop call E self fuel condition msg started
      (snd (wait_turn call E self (snd (condition s)))).
Proof.
  intros Hfalse Hlate Hturn. rewrite wait_for_loop_step.
  destruct (condition s) as [r s1]. cbn [fst snd] in *. subst r. rewrite Hlate.
  rewrite wait_turn_eq in Hturn |- *. cbv zeta in *.
  destruct (wait_callback self) as [cb|]; [|reflexivity].
  destruct (invoke call cb _) as [[v|e|] s3]; cbn [fst snd] in *;
    try discriminate; reflexivity.
Qed.

(** A condition that is false in every state stays false during any
    wait. *)
Lemma never_true_stays_false condition :
  never_true condition ->
  stays_false_during call E self condition (fun _ => True).
Proof. intros Hnever. constructor; auto. Qed.

Section StaysFalseDuring.

Variables (condition : M state bool) (msg : string) (inv : state -> Prop).
Hypothesis Hinv : stays_false_during call E self condition inv.
Hypothesis Hcallback : wait_callback_returns call self.

(** While the condition stays false, the loop can only end by the
    [raise] of its own, and it gets there only on a reading of the
    clock beyond the deadline. *)
Lemma wait_for_loop_only_times_out fuel started s :
  inv s ->
  match wait_for_loop call E self fuel condition msg started s with
  | (Return _, _) => False
  | (Raise e, s1) => e = Exception msg /\ started + wait_timeout self < now s1
  | (OutOfFuel, _) => True
  end.
Proof.
  revert s. induction fuel as [|fuel IH]; intros s Hs; [exact I|].
  pose proof (during_false _ _ _ _ _ Hinv s Hs) as Hfalse.
  pose proof (during_poll _ _ _ _ _ Hinv s Hs) as Hs1.
  destruct (started + wait_timeout self <? now (snd (condition s))) eqn:Hlate.
  - rewrite wait_for_loop_late by assumption. split; [reflexivity | lia].
  - rewrite wait_for_loop_turn by (assumption || now apply wait_turn_returns).
    apply IH. now apply (during_turn _ _ _ _ _ Hinv).
Qed.

Hypothesis Hcondition_clock : forall s, inv s -> now s <= now (snd (condition s)).
Hypothesis Hevents_clock : clock_goes_forward (processEvents E).

(** Each turn sleeps ten milliseconds, so [n] more turns are enough
    once the deadline is less than [10 * n] away. *)
Lemma wait_for_loop_reaches_deadline (n : nat) started s :
  inv s ->
  started + wait_timeout self < now s + 10 * Z.of_nat n ->
  exists s1,
    wait_for_loop call E self (S n) condition msg started s
    = (Raise (Exception msg), s1).
Proof.
  revert s. induction n as [|n IH]; intros s Hs Hnear;
    pose proof (during_false _ _ _ _ _ Hinv s Hs) as Hfalse;
    pose proof (during_poll _ _ _ _ _ Hinv s Hs) as Hs1;
    pose proof (Hcondition_clock s Hs) as Hclock;
    destruct (started + wait_timeout self <? now (snd (condition s))) eqn:Hlate;
    try (rewrite wait_for_loop_late by assumption; eauto).
  - lia.
  - rewrite wait_for_loop_turn by (assumption || now apply wait_turn_returns).
    pose proof (wait_turn_clock (snd (condition s)) Hevents_clock) as Hturn.
    apply IH; [now apply (during_turn _ _ _ _ _ Hinv) | lia].
Qed.

(** C1, as amended.  With a condition that stays false as long as the
    wait lasts (a wait callback that returns, and a condition and an
    event pump that do not set the clock back), [wait_for] fails:
    given enough turns it raises [Exception(timeout_message)], a plain
    [Exception] carrying the caller's message.  It never returns, and
    whenever it raises, the clock read more than [wait_timeout] past
    the start: no turn of the loop on which the elapsed time is at
    most [wait_timeout] raises. *)
Theorem wait_for_times_out s :
  inv s ->
  (exists fuel s1, forall fuel', (fuel <= fuel')%nat ->
      wait_for call E self fuel' condition msg s = (Raise (Exception msg), s1))
  /\ (forall fuel e s1,
         wait_for call E self fuel condition msg s = (Raise e, s1) ->
         e = Exception msg /\ wait_timeout self < now s1 - now s)
  /\ (forall fuel s1,
         wait_for call E self fuel condition msg s <> (Return tt, s1)).
Proof.
  intros Hs.
  assert (Hwait : forall fuel,
    wait_for call E self fuel condition msg s
    = wait_for_loop call E self fuel condition msg (now s) s) by reflexivity.
  split; [|split].
  - set (n := Z.to_nat (wait_timeout self / 10 + 1)).
    destruct (wait_for_loop_reaches_deadline n (now s) s Hs) as [s1 Hs1].
    + subst n. pose proof (Z.mod_pos_bound (wait_timeout self) 10 ltac:(lia)).
      pose proof (Z.div_mod (wait_timeout self) 10 ltac:(lia)). lia.
    + exists (S n), s1. intros fuel' Hle. rewrite Hwait, <- Hs1.
      apply wait_for_loop_enough_fuel; [exact Hle|]. now rewrite Hs1.
  - intros fuel e s1 Hraise. rewrite Hwait in Hraise.
    pose proof (wait_for_loop_only_times_out fuel (now s) s Hs) as Hloop.
    rewrite Hraise in Hloop. destruct Hloop as [-> Hlate]. split; [reflexivity | lia].
  - intros fuel s1 Hret. rewrite Hwait in Hret.
    pose proof (wait_for_loop_only_times_out fuel (now s) s Hs) as Hloop.
    now rewrite Hret in Hloop.
Qed.

End StaysFalseDuring.

(** C10.  When the wait ends, [wait_for_page_loaded] returns the whole
    drained list together with its last element whose URL is the main
    frame's URL, and [None] in its place when no drained resource has
    that URL; the buffer is left empty. *)
Theorem wait_for_page_loaded_result fuel s s1 :
  wait_for call E self fuel (get loaded) "Unable to load requested page" s
  = (Return tt, s1) ->
  exists page_,
    wait_for_page_loaded call E self fuel s
    = (Return (page_, http_resources s1), set_http_resources [] s1)
    /\ last_with_url (frame_url E (page s1)) (http_resources s1) page_.
Proof.
  intros Hwait.
  exists (find_page (frame_url E (page s1)) (http_resources s1)).
  split; [|apply find_page_last].
  unfold wait_for_page_loaded, bind. now rewrite Hwait.
Qed.

(** C6.  On a selector for which the frame finds no element, [click],
    [fill] and [set_field_value] raise their not-found exception
    before anything is done to the page: the state is the one of the
    call, but for the load flag when [expect_loading] was passed. *)
Theorem missing_element_fails fuel selector (expect_loading : bool) s :
  isNull E (findFirstElement E selector (page s)) = true ->
  let s1 := if expect_loading then set_loaded false s else s in
  click call E self fuel selector expect_loading s
  = (Raise (Exception "Can't find element to click"), s1)
  /\ (forall values,
         fill call E self fuel selector values expect_loading s
         = (Raise (Exception "Can't find form"), s1))
  /\ (forall value blur,
         set_field_value call E self fuel selector value blur expect_loading s
         = (Raise (Exception ("can't find element for " +:+ selector +:+ dq)),
            s1)).
Proof.
  intros Hnull s1.
  assert (Hnull1 : isNull E (findFirstElement E selector (page s1)) = true)
    by (subst s1; now destruct expect_loading).
  split; [|split; [intros values | intros value blur]].
  - unfold click, can_load_page, click_func, exists_, bind, get, modify.
    destruct expect_loading; cbn in *; now rewrite ?Hnull, ?Hnull1.
  - unfold fill, can_load_page, fill_func, exists_, bind, get, modify.
    destruct expect_loading; cbn in *; now rewrite ?Hnull, ?Hnull1.
  - unfold set_field_value, can_load_page, set_field_value_func, bind, get, modify.
    destruct expect_loading; cbn in *; now rewrite ?Hnull, ?Hnull1.
Qed.

End Waiting.

(** C1, as stated, fails on the class of the exception: what is raised
    is a plain [Exception], not a [TimeoutError].  Here the session
    gives up after 30 ms, and the loop raises on a reading of the
    clock beyond the deadline, more than 30 ms after the start. *)
Lemma wait_for_raises_plain_exception :
  never_true (ret false : M static_state bool)
  /\ exists e s1,
       wait_for call_client static_engine impatient 10 (ret false) "too late"
         (initial example_page) = (Raise e, s1)
       /\ exc_message e = "too late"
       /\ exc_class e = "Exception"
       /\ exc_class e <> "TimeoutError"
       /\ wait_timeout impatient < now s1 - now (initial example_page).
Proof.
  split; [intros s; reflexivity|].
  eexists. eexists. split; [vm_compute; reflexivity|].
  repeat split. discriminate.
Qed.

(** On the static page nothing loads: the flag, once false, stays
    false through every poll and every turn of a wait. *)
Lemma flag_stays_false_on_static_page :
  stays_false_during call_client static_engine impatient (get loaded)
    (fun s => loaded s = false).
Proof.
  constructor; intros s Hs.
  - unfold get. cbn. now rewrite Hs.
  - exact Hs.
  - exact Hs.
Qed.

Lemma wait_for_times_out_witness :
  stays_false_during call_client static_engine impatient (get loaded)
    (fun s => loaded s = false)
  /\ wait_callback_returns call_client impatient
  /\ (forall s : static_state, loaded s = false -> now s <= now (snd (get loaded s)))
  /\ clock_goes_forward (processEvents static_engine)
  /\ loaded waiting_state = false
  /\ exists fuel s1, forall fuel', (fuel <= fuel')%nat ->
       wait_for call_client static_engine impatient fuel' (get loaded)
         "Unable to load requested page" waiting_state
       = (Raise (Exception "Unable to load requested page"), s1).
Proof.
  assert (H2 : wait_callback_returns call_client impatient)
    by (intros cb Hcb; discriminate Hcb).
  assert (H3 : forall s : static_state,
             loaded s = false -> now s <= now (snd (get loaded s)))
    by (intros s _; cbn; lia).
  assert (H4 : clock_goes_forward (processEvents static_engine))
    by (intros s; cbn; lia).
  split; [exact flag_stays_false_on_static_page|].
  repeat (split; [assumption || reflexivity|]).
  exact (proj1 (wait_for_times_out call_client static_engine impatient
                  (get loaded) "Unable to load requested page"
                  (fun s => loaded s = false)
                  flag_stays_false_on_static_page H2 H3 H4
                  waiting_state eq_refl)).
Defined.

(** C2, as stated, fails for a reply without HTTP status: its
    [finished] signal is handled, and the drain that follows returns
    an empty list. *)
Lemma reply_without_status_not_recorded :
  reply_status local_file_reply = None
  /\ fst ((deliver [finished local_file_reply] ;;; _release_last_resources)
            (initial example_page))
     = Return [].
Proof. split; reflexivity. Qed.

(** Before the load-finished slot runs, the body of a cached URL is
    recovered by the constructor. *)
Lemma cached_body_is_recovered :
  content <$> (match fst (HttpResource__init__
                            (example_reply "http://localhost/form" (Some 200))
                            (cache cached_state) None cached_state) with
               | Return r => Some r
               | _ => None
               end)
  = Some (Some (PyUnicode "<html>form</html>")).
Proof. vm_compute. reflexivity. Qed.

Lemma page_loaded_clears_cache_witness :
  exists r t1,
    HttpResource__init__ (example_reply "http://localhost/form" (Some 200))
      (cache (snd (_page_loaded cached_state))) None cached_state
    = (Return r, t1)
    /\ content r = None.
Proof.
  assert (Hrun : exists r t1,
    HttpResource__init__ (example_reply "http://localhost/form" (Some 200))
      (cache (snd (_page_loaded cached_state))) None cached_state
    = (Return r, t1)) by (do 2 eexists; vm_compute; reflexivity).
  destruct Hrun as (r & t1 & Hrun). exists r, t1. split; [exact Hrun|].
  exact (proj2 (proj2 (proj2 (page_loaded_clears_cache cached_state))) _ _ _ _ Hrun).
Defined.

Lemma wait_for_page_loaded_result_witness :
  wait_for call_client static_engine impatient 1 (get loaded)
    "Unable to load requested page" loaded_state = (Return tt, loaded_state)
  /\ exists page_,
       wait_for_page_loaded call_client static_engine impatient 1 loaded_state
       = (Return (page_, example_resources), set_http_resources [] loaded_state)
       /\ last_with_url "http://localhost/form" example_resources page_.
Proof.
  split; [reflexivity|].
  exact (wait_for_page_loaded_result call_client static_engine impatient 1
           loaded_state loaded_state eq_refl).
Defined.

(** The two cases of C10 on the example buffer: the later of the two
    resources with the page's URL is the page; on a page whose URL no
    resource has, the page is [None] and the list is still complete. *)
Lemma page_is_last_match :
  fst (wait_for_page_loaded call_client static_engine impatient 1 loaded_state)
  = Return (Some (resource_at "http://localhost/form" "second"),
            example_resources)
  /\ fst (wait_for_page_loaded call_client static_engine impatient 1
            redirected_state)
     = Return (None, example_resources).
Proof. split; reflexivity. Qed.

Lemma missing_element_fails_witness :
  isNull static_engine
    (findFirstElement static_engine "#missing" (page (initial example_page)))
  = true
  /\ click call_client static_engine impatient 1 "#missing" false
       (initial example_page)
     = (Raise (Exception "Can't find element to click"), initial example_page)
  /\ fill call_client static_engine impatient 1 "#missing"
       [("name", VStr "Ada")] true (initial example_page)
     = (Raise (Exception "Can't find form"),
        set_loaded false (initial example_page))
  /\ set_field_value call_client static_engine impatient 1 "#missing"
       (VStr "Ada") true false (initial example_page)
     = (Raise (Exception ("can't find element for " +:+ "#missing" +:+ dq)),
        initial example_page).
Proof.
  split; [reflexivity|]. split; [|split].
  - exact (proj1 (missing_element_fails call_client static_engine impatient 1
                    "#missing" false (initial example_page) eq_refl)).
  - exact (proj1 (proj2 (missing_element_fails call_client static_engine
                           impatient 1 "#missing" true (initial example_page)
                           eq_refl)) _).
  - exact (proj2 (proj2 (missing_element_fails call_client static_engine
                           impatient 1 "#missing" false (initial example_page)
                           eq_refl)) _ _).
Defined.

Create HintDb keeps.

Section LoadFlag.

Context {DOM element callable client : Type}.
Variable call : callable -> client -> outcome pyval * client.
Variable E : @engine DOM element callable client.
Variable self : @ghost callable.

Local Abbreviation state := (@state DOM callable client).
Implicit Types (s : state).

(** ** Methods that leave the flag alone *)

Lemma keeps_ret {A} (a : A) : keeps_loaded (ret a : M state A).
Proof. intros s. reflexivity. Qed.

Lemma keeps_raise {A} (e : pyexc) : keeps_loaded (raise e : M state A).
Proof. intros s. reflexivity. Qed.

Lemma keeps_get {A} (f : state -> A) : keeps_loaded (get f).
Proof. intros s. reflexivity. Qed.

Lemma keeps_modify (f : state -> state) :
  (forall s, loaded (f s) = loaded s) -> keeps_loaded (modify f).
Proof. intros Hf s. apply Hf. Qed.

Lemma keeps_bind {A B} (m : M state A) (k : A -> M state B) :
  keeps_loaded m -> (forall a, keeps_loaded (k a)) -> keeps_loaded (bind m k).
Proof.
  intros Hm Hk s. unfold bind. specialize (Hm s).
  destruct (m s) as [[a|e|] s1]; cbn in *; [|assumption..].
  now rewrite Hk.
Qed.

Lemma keeps_Logger_log text sndr lvl :
  keeps_loaded (Logger_log text sndr lvl : M state unit).
Proof. apply keeps_modify. reflexivity. Qed.

Lemma keeps_invoke c : keeps_loaded (invoke call c : M state pyval).
Proof. intros s. unfold invoke. now destruct (call c (user s)). Qed.

#[local] Hint Resolve keeps_ret keeps_raise keeps_get keeps_Logger_log keeps_invoke
  : keeps.

(** The hypothesis on the engine, for the operation at hand. *)
Ltac quiet_field :=
  match goal with
  | Hq : quiet_engine ?eng |- _ =>
      first [ apply (quiet_setFocus eng Hq)
            | apply (quiet_setAttribute eng Hq)
            | apply (quiet_removeAttribute eng Hq)
            | apply (quiet_setPlainText eng Hq)
            | apply (quiet_frame_load eng Hq)
            | apply (quiet_processEvents eng Hq) ]
  end.

(** Goes through a method statement by statement. *)
Ltac keeps_step :=
  match goal with
  | |- keeps_loaded (bind _ _) => apply keeps_bind; [|intros ?]
  | |- keeps_loaded (modify _) => apply keeps_modify; intros ?; cbn
  | |- keeps_loaded (if ?b then _ else _) => destruct b
  | |- keeps_loaded (match ?x with _ => _ end) => destruct x
  | |- keeps_loaded _ => solve [auto with keeps]
  | |- loaded _ = loaded _ => solve [reflexivity | auto | quiet_field]
  end.

Lemma keeps_javaScriptAlert text : keeps_loaded (javaScriptAlert text : M state unit).
Proof. unfold javaScriptAlert. repeat keeps_step. Qed.

Lemma keeps_javaScriptConfirm text :
  keeps_loaded (javaScriptConfirm call text : M state pyval).
Proof. unfold javaScriptConfirm. repeat keeps_step. Qed.

Lemma keeps_javaScriptPrompt text dv result :
  keeps_loaded (javaScriptPrompt call text dv result : M state _).
Proof. unfold javaScriptPrompt. repeat keeps_step. Qed.

Lemma keeps_fire (d : dialog) s : loaded (fire call d s) = loaded s.
Proof.
  destruct d; unfold fire;
    [apply keeps_javaScriptAlert | apply keeps_javaScriptConfirm
    | apply keeps_javaScriptPrompt].
Qed.

Lemma keeps_HttpResource__init__ reply c body :
  keeps_loaded (HttpResource__init__ reply c body : M state HttpResource).
Proof. unfold HttpResource__init__. repeat keeps_step. Qed.

Lemma keeps_release : keeps_loaded (_release_last_resources : M state _).
Proof. unfold _release_last_resources. repeat keeps_step. Qed.

#[local] Hint Resolve keeps_HttpResource__init__ keeps_release : keeps.

Lemma keeps_request_ended reply :
  keeps_loaded (_request_ended reply : M state unit).
Proof. unfold _request_ended. repeat keeps_step. Qed.

Lemma keeps_unsupported_content reply :
  keeps_loaded (_unsupported_content reply : M state unit).
Proof. unfold _unsupported_content. repeat keeps_step. Qed.

Section Quiet.

Hypothesis Hquiet : quiet_engine E.

Lemma keeps_wait_for_loop fuel condition msg started :
  keeps_loaded condition ->
  keeps_loaded (wait_for_loop call E self fuel condition msg started).
Proof.
  intros Hcond. induction fuel as [|fuel IH]; [intros s; reflexivity|].
  cbn [wait_for_loop]. unfold time_time, time_sleep.
  repeat keeps_step.
Qed.

Lemma keeps_wait_for fuel condition msg :
  keeps_loaded condition ->
  keeps_loaded (wait_for call E self fuel condition msg).
Proof.
  intros Hcond. unfold wait_for, time_time. repeat keeps_step.
  now apply keeps_wait_for_loop.
Qed.

Lemma keeps_wait_for_page_loaded fuel :
  keeps_loaded (wait_for_page_loaded call E self fuel).
Proof.
  unfold wait_for_page_loaded. repeat keeps_step.
  apply keeps_wait_for. auto with keeps.
Qed.

Lemma keeps_wait_for_alert fuel : keeps_loaded (wait_for_alert call E self fuel).
Proof.
  unfold wait_for_alert. repeat keeps_step.
  apply keeps_wait_for. auto with keeps.
Qed.

Lemma keeps_wait_for_selector fuel selector :
  keeps_loaded (wait_for_selector call E self fuel selector).
Proof.
  unfold wait_for_selector. repeat keeps_step.
  apply keeps_wait_for. unfold exists_. auto with keeps.
Qed.

Lemma keeps_wait_for_text fuel text :
  keeps_loaded (wait_for_text call E self fuel text).
Proof.
  unfold wait_for_text. repeat keeps_step.
  apply keeps_wait_for. auto with keeps.
Qed.

Lemma keeps_evaluate_func script : keeps_loaded (evaluate_func E script).
Proof.
  unfold evaluate_func. apply keeps_bind; [|intros v; repeat keeps_step].
  intros s. pose proof (quiet_evaluateJavaScript E Hquiet script s) as Hjs.
  now destruct (evaluateJavaScript E script s).
Qed.

#[local] Hint Resolve keeps_evaluate_func : keeps.

Lemma keeps_click_func selector : keeps_loaded (click_func E selector).
Proof. unfold click_func, exists_. repeat keeps_step. Qed.

Lemma keeps_fire_on_func selector method :
  keeps_loaded (fire_on_func E selector method).
Proof. unfold fire_on_func. auto with keeps. Qed.

#[local] Hint Resolve keeps_click_func keeps_fire_on_func : keeps.

Lemma keeps_set_checkbox_value el value :
  keeps_loaded (_set_checkbox_value E el value).
Proof.
  unfold _set_checkbox_value. repeat keeps_step.
Qed.

#[local] Hint Resolve keeps_set_checkbox_value : keeps.

Lemma keeps_set_checkboxes_value els value :
  keeps_loaded (_set_checkboxes_value E els value).
Proof.
  induction els as [|el els IH]; cbn [_set_checkboxes_value];
    repeat keeps_step.
Qed.

Lemma keeps_set_radio_value els value :
  keeps_loaded (_set_radio_value E els value).
Proof.
  induction els as [|el els IH]; cbn [_set_radio_value];
    repeat keeps_step.
Qed.

Lemma keeps_set_text_value el value :
  keeps_loaded (_set_text_value E el value).
Proof.
  unfold _set_text_value. repeat keeps_step.
Qed.

Lemma keeps_set_textarea_value el value :
  keeps_loaded (_set_textarea_value E el value).
Proof.
  unfold _set_textarea_value. repeat keeps_step.
Qed.

#[local] Hint Resolve keeps_set_checkboxes_value keeps_set_radio_value
  keeps_set_text_value keeps_set_textarea_value : keeps.

Lemma keeps_set_field_value_func selector value blur :
  keeps_loaded (set_field_value_func E selector value blur).
Proof. unfold set_field_value_func. repeat keeps_step. Qed.

#[local] Hint Resolve keeps_set_field_value_func : keeps.

Lemma keeps_fill_fields selector values resources :
  keeps_loaded (fill_fields E selector values resources).
Proof.
  revert resources.
  induction values as [|[field v] values IH]; intros resources;
    cbn [fill_fields]; repeat keeps_step.
Qed.

#[local] Hint Resolve keeps_fill_fields : keeps.

Lemma keeps_fill_func selector values :
  keeps_loaded (fill_func E selector values).
Proof. unfold fill_func, exists_. repeat keeps_step. Qed.

#[local] Hint Resolve keeps_fill_func keeps_wait_for_page_loaded : keeps.

(** The decorator: the function's own effect without
    [expect_loading], the flag cleared with it. *)
Lemma can_load_page_plain {A} fuel (func : M state A) :
  keeps_loaded func -> keeps_loaded (can_load_page call E self fuel func false).
Proof. intros Hf. unfold can_load_page. repeat keeps_step. Qed.

Lemma can_load_page_expecting {A} fuel (func : M state A) s :
  keeps_loaded func ->
  loaded (snd (can_load_page call E self fuel func true s)) = false.
Proof.
  intros Hf. unfold can_load_page.
  assert (Hrest : keeps_loaded
            (func ;;; r <- wait_for_page_loaded call E self fuel ;; ret (inr r)
             : M state (A + _))) by repeat keeps_step.
  unfold bind at 1. cbn. now rewrite Hrest.
Qed.

Lemma can_load_page_flag {A} fuel (func : M state A) (expect_loading : bool) s :
  keeps_loaded func ->
  loaded (snd (can_load_page call E self fuel func expect_loading s))
  = if expect_loading then false else loaded s.
Proof.
  intros Hf. destruct expect_loading.
  - now apply can_load_page_expecting.
  - now apply can_load_page_plain.
Qed.

Lemma open_flag fuel address method hs auth body s :
  loaded (snd (open call E self fuel address method hs auth body s)) = loaded s
  \/ loaded (snd (open call E self fuel address method hs auth body s)) = false.
Proof.
  unfold open.
  destruct (QNetworkAccessManager_attr E _) as [operation|]; [right | now left].
  unfold bind, modify. cbv beta iota.
  now rewrite keeps_wait_for_page_loaded.
Qed.

(** What a call does to the flag: nothing, or the assignment listed in
    [writes_loaded]. *)
Lemma run_flag fuel (c : api_call) s :
  loaded (run call E self fuel c s) = loaded s
  \/ writes_loaded c = Some (loaded (run call E self fuel c s)).
Proof.
  destruct c; cbn [run writes_loaded];
    try (left;
         first [ apply keeps_request_ended | apply keeps_unsupported_content
               | apply keeps_release | apply keeps_fire
               | apply keeps_wait_for_page_loaded | apply keeps_wait_for_alert
               | apply keeps_wait_for_selector | apply keeps_wait_for_text
               | reflexivity ]).
  - right. reflexivity.
  - right. reflexivity.
  - destruct (open_flag fuel address method headers_ auth body s) as [H|H];
      [now left | right; now rewrite H].
  - unfold click. rewrite can_load_page_flag by auto with keeps.
    destruct expect_loading; auto.
  - unfold evaluate. rewrite can_load_page_flag by auto with keeps.
    destruct expect_loading; auto.
  - unfold fill. rewrite can_load_page_flag by auto with keeps.
    destruct expect_loading; auto.
  - unfold fire_on. rewrite can_load_page_flag by auto with keeps.
    destruct expect_loading; auto.
  - unfold set_field_value. rewrite can_load_page_flag by auto with keeps.
    destruct expect_loading; auto.
Qed.

End Quiet.

(** C7, as amended.  As long as the engine itself calls no slot, the
    load flag changes only through the calls listed in
    [writes_loaded], and to the value listed there: the load-finished
    slot sets it to true; the load-started slot, [open] and any
    decorated method called with [expect_loading=True] set it to
    false.  The loop of [wait_for] reads the flag and does not assign
    it. *)
Theorem loaded_flag_writers :
  quiet_engine E ->
  (forall fuel c s,
      loaded (run call E self fuel c s) <> loaded s ->
      writes_loaded c = Some (loaded (run call E self fuel c s)))
  /\ (forall fuel condition msg,
         keeps_loaded condition ->
         keeps_loaded (wait_for call E self fuel condition msg))
  /\ (forall fuel s,
         loaded (run call E self fuel call_page_loaded s) = true
         /\ loaded (run call E self fuel call_page_load_started s) = false).
Proof.
  intros Hquiet. split; [|split].
  - intros fuel c s Hchanged.
    destruct (run_flag Hquiet fuel c s) as [Hsame|Hwrite]; [contradiction | exact Hwrite].
  - intros fuel condition msg. now apply keeps_wait_for.
  - intros fuel s. split; reflexivity.
Qed.

End LoadFlag.

Lemma static_engine_is_quiet : quiet_engine static_engine.
Proof. constructor; reflexivity. Qed.

(** C7, as stated, fails: on a page where nothing happens (no slot is
    ever called), [open] changes the flag from true to false. *)
Lemma open_writes_loaded :
  quiet_engine static_engine
  /\ ~ (forall (fuel : nat) (c : api_call) (s : static_state),
           loaded (run call_client static_engine impatient fuel c s) <> loaded s ->
           c = call_page_loaded \/ c = call_page_load_started).
Proof.
  split; [exact static_engine_is_quiet|]. intros Hclaim.
  destruct (Hclaim 10%nat
              (call_open "http://localhost/form" "get" [] None None)
              (initial example_page)) as [H|H].
  - vm_compute. discriminate.
  - discriminate H.
  - discriminate H.
Qed.

Lemma loaded_flag_writers_witness :
  quiet_engine static_engine
  /\ loaded (run call_client static_engine impatient 10
               (call_open "http://localhost/form" "get" [] None None)
               (initial example_page))
     <> loaded (initial example_page)
  /\ writes_loaded (call_open "http://localhost/form" "get" [] None None
                    : @api_call nat)
     = Some (loaded (run call_client static_engine impatient 10
                       (call_open "http://localhost/form" "get" [] None None)
                       (initial example_page))).
Proof.
  split; [exact static_engine_is_quiet|].
  assert (Hchanged :
    loaded (run call_client static_engine impatient 10
              (call_open "http://localhost/form" "get" [] None None)
              (initial example_page))
    <> loaded (initial example_page)) by (vm_compute; discriminate).
  split; [exact Hchanged|].
  exact (proj1 (loaded_flag_writers call_client static_engine impatient
                  static_engine_is_quiet) 10%nat _ _ Hchanged).
Defined.

(** * Further properties of the code *)

Section MoreWaiting.

Context {DOM element callable client : Type}.
Variable call : callable -> client -> outcome pyval * client.
Variable E : @engine DOM element callable client.
Variable self : @ghost callable.

Local Abbreviation state := (@state DOM callable client).
Implicit Types (s : state) (msg : string) (condition : M state bool).

(** A method that returned, taken apart at a [bind]. *)
Lemma bind_returns {A B} (m : M state A) (k : A -> M state B) s b s1 :
  bind m k s = (Return b, s1) ->
  exists a s0, m s = (Return a, s0) /\ k a s0 = (Return b, s1).
Proof.
  unfold bind. destruct (m s) as [[a|e|] s0]; intros Heq; try discriminate.
  now exists a, s0.
Qed.

(** X1.  A wait whose condition holds on the first poll returns at
    once, in the state the condition left: nothing sleeps, the event
    loop is not pumped, the wait callback is not called, and the
    timeout plays no part. *)
Theorem wait_for_returns_at_once fuel condition msg s :
  fst (condition s) = Return true ->
  wait_for call E self (S fuel) condition msg s
  = (Return tt, snd (condition s)).
Proof.
  intros Htrue. unfold wait_for, bind at 1, time_time, get.
  rewrite wait_for_loop_step.
  destruct (condition s) as [r s1]. cbn in Htrue. now subst r.
Qed.

Lemma wait_for_loop_returns_when_true fuel (f : state -> bool) msg started s s1 :
  wait_for_loop call E self fuel (get f) msg started s = (Return tt, s1) ->
  f s1 = true.
Proof.
  revert s. induction fuel as [|fuel IH]; intros s; [discriminate|].
  rewrite wait_for_loop_step. unfold get at 1.
  destruct (f s) eqn:Hf.
  - intros Heq. injection Heq as <-. exact Hf.
  - destruct (started + wait_timeout self <? now s); [discriminate|].
    cbn zeta. destruct (wait_callback self) as [cb|]; [|apply IH].
    destruct (invoke call cb _) as [[v|e|] s3]; try discriminate. apply IH.
Qed.

(** X2.  When a wait on a condition read off the state returns, the
    condition holds in the state it returns in. *)
Theorem wait_for_returns_when_true fuel (f : state -> bool) msg s s1 :
  wait_for call E self fuel (get f) msg s = (Return tt, s1) ->
  f s1 = true.
Proof.
  unfold wait_for, bind at 1, time_time, get at 1.
  apply wait_for_loop_returns_when_true.
Qed.

Section Turns.

Variables (condition : M state bool) (msg : string) (inv : state -> Prop).
Hypothesis Hinv : stays_false_during call E self condition inv.
Hypothesis Hcallback : wait_callback_returns call self.

Lemma wait_for_loop_overshoot fuel started (d : Z) s :
  (forall t, inv t ->
     now (snd (condition (snd (wait_turn call E self t)))) <= now t + d) ->
  inv s ->
  now (snd (condition s)) <= started + wait_timeout self + d ->
  match wait_for_loop call E self fuel condition msg started s with
  | (Raise _, s1) => now s1 <= started + wait_timeout self + d
  | _ => True
  end.
Proof.
  intros Hnext. revert s. induction fuel as [|fuel IH]; intros s Hs Hnear;
    [exact I|].
  pose proof (during_false _ _ _ _ _ Hinv s Hs) as Hfalse.
  pose proof (during_poll _ _ _ _ _ Hinv s Hs) as Hs1.
  destruct (started + wait_timeout self <? now (snd (condition s))) eqn:Hlate.
  - rewrite wait_for_loop_late by assumption. exact Hnear.
  - rewrite wait_for_loop_turn by (assumption || now apply wait_turn_returns).
    apply IH.
    + now apply (during_turn _ _ _ _ _ Hinv).
    + pose proof (Hnext _ Hs1). lia.
Qed.

(** X3.  For a condition that stays false during the wait, a wait
    callback that returns and a timeout that is not negative: if at
    most [d] milliseconds pass from the start to the first reading of
    the clock and from one reading to the next, a wait that times out
    does so more than [wait_timeout] and at most [wait_timeout + d]
    milliseconds after the start. *)
Theorem timeout_within_one_turn fuel (d : Z) s e s1 :
  inv s ->
  0 <= wait_timeout self ->
  now (snd (condition s)) <= now s + d ->
  (forall t, inv t ->
     now (snd (condition (snd (wait_turn call E self t)))) <= now t + d) ->
  wait_for call E self fuel condition msg s = (Raise e, s1) ->
  wait_timeout self < now s1 - now s <= wait_timeout self + d.
Proof.
  intros Hs Hpos Hfirst Hnext Hraise.
  assert (Hloop : wait_for_loop call E self fuel condition msg (now s) s
                  = (Raise e, s1)) by exact Hraise.
  pose proof (wait_for_loop_only_times_out call E self condition msg inv
                Hinv Hcallback fuel (now s) s Hs) as Hlow.
  pose proof (wait_for_loop_overshoot fuel (now s) d s Hnext Hs ltac:(lia))
    as Hhigh.
  rewrite Hloop in Hlow, Hhigh. lia.
Qed.

Hypothesis Hcondition_clock : forall s, now s <= now (snd (condition s)).
Hypothesis Hevents_clock : clock_goes_forward (processEvents E).
Hypothesis Hcondition_fired : forall s, fired (snd (condition s)) = fired s.
Hypothesis Hevents_fired : forall s, fired (processEvents E s) = fired s.




End Turns.

Section StaysFalse.

Variable f : state -> bool.
Hypothesis Hf : stays_false E f.
Hypothesis Hevents_clock : clock_goes_forward (processEvents E).
Hypothesis Hcallback : wait_callback_returns call self.

Lemma invoke_stays c s : f (snd (invoke call c s)) = f s.
Proof.
  unfold invoke. destruct (call c (user s)) as [r u]. cbn.
  now rewrite (stays_false_user E f Hf), (stays_false_fired E f Hf).
Qed.

(** A wait on a condition that no turn of the loop makes true reaches
    the deadline and raises. *)
Lemma wait_for_loop_stays_false (n : nat) msg started s :
  f s = false ->
  started + wait_timeout self < now s + 10 * Z.of_nat n ->
  exists s1,
    wait_for_loop call E self (S n) (get f) msg started s
    = (Raise (Exception msg), s1)
    /\ f s1 = false.
Proof.
  revert s. induction n as [|n IH]; intros s Hfalse Hnear;
    rewrite wait_for_loop_step; unfold get at 1; rewrite Hfalse.
  - destruct (started + wait_timeout self <? now s) eqn:Hlate; [eauto | lia].
  - destruct (started + wait_timeout self <? now s) eqn:Hlate; [eauto|].
    cbn zeta.
    set (s2 := processEvents E (set_now (now s + 10) s)).
    assert (Hf2 : f s2 = false).
    { subst s2. apply (stays_false_events E f Hf).
      now rewrite (stays_false_clock E f Hf). }
    assert (Hn2 : now s + 10 <= now s2).
    { subst s2. pose proof (Hevents_clock (set_now (now s + 10) s)) as H.
      exact H. }
    destruct (wait_callback self) as [cb|] eqn:Hcb.
    + destruct (Hcallback cb Hcb (user s2)) as [v Hv].
      rewrite <- invoke_fst in Hv.
      pose proof (invoke_now call cb s2) as Hn3.
      pose proof (invoke_stays cb s2) as Hf3.
      destruct (invoke call cb s2) as [r s3]. cbn in Hv, Hn3, Hf3. subst r.
      apply IH; [congruence | lia].
    + apply IH; [assumption | lia].
Qed.

Lemma wait_for_stays_false msg s :
  f s = false ->
  exists fuel s1, forall fuel', (fuel <= fuel')%nat ->
    wait_for call E self fuel' (get f) msg s = (Raise (Exception msg), s1).
Proof.
  intros Hfalse.
  set (n := Z.to_nat (wait_timeout self / 10 + 1)).
  destruct (wait_for_loop_stays_false n msg (now s) s Hfalse) as (s1 & Hs1 & _).
  - subst n. pose proof (Z.mod_pos_bound (wait_timeout self) 10 ltac:(lia)).
    pose proof (Z.div_mod (wait_timeout self) 10 ltac:(lia)). lia.
  - exists (S n), s1. intros fuel' Hle.
    change (wait_for_loop call E self fuel' (get f) msg (now s) s
            = (Raise (Exception msg), s1)).
    rewrite <- Hs1. apply wait_for_loop_enough_fuel; [exact Hle|].
    now rewrite Hs1.
Qed.

End StaysFalse.

End MoreWaiting.

Section MoreSession.

Context {DOM element callable client : Type}.
Variable call : callable -> client -> outcome pyval * client.
Variable E : @engine DOM element callable client.
Variable self : @ghost callable.

Local Abbreviation state := (@state DOM callable client).
Implicit Types (s : state).

Lemma loaded_stays_false :
  (forall t : state, loaded t = false -> loaded (processEvents E t) = false) ->
  stays_false E loaded.
Proof. intros Hevents. constructor; auto. Qed.

Lemma wait_for_page_loaded_times_out s :
  (forall t : state, loaded t = false -> loaded (processEvents E t) = false) ->
  clock_goes_forward (processEvents E) ->
  wait_callback_returns call self ->
  loaded s = false ->
  exists fuel s1, forall fuel', (fuel <= fuel')%nat ->
    wait_for_page_loaded call E self fuel' s
    = (Raise (Exception "Unable to load requested page"), s1).
Proof.
  intros Hevents Hclock Hcallback Hfalse.
  destruct (wait_for_stays_false call E self loaded (loaded_stays_false Hevents)
              Hclock Hcallback "Unable to load requested page" s Hfalse)
    as (fuel & s1 & Hwait).
  exists fuel, s1. intros fuel' Hle.
  unfold wait_for_page_loaded, bind at 1. now rewrite (Hwait fuel' Hle).
Qed.

(** X5.  [open] clears the load flag after it has handed the request
    to the frame.  So whatever happened inside [load] (even a load
    that finished there), if no load-finished signal arrives while
    [open] waits, [open] fails with "Unable to load requested page"
    once the timeout has passed. *)
Theorem open_without_load_finished address method hs auth body operation s :
  QNetworkAccessManager_attr E (capitalize method +:+ "Operation")
  = Some operation ->
  (forall t : state, loaded t = false -> loaded (processEvents E t) = false) ->
  clock_goes_forward (processEvents E) ->
  wait_callback_returns call self ->
  exists fuel s1, forall fuel', (fuel <= fuel')%nat ->
    open call E self fuel' address method hs auth body s
    = (Raise (Exception "Unable to load requested page"), s1).
Proof.
  intros Hattr Hevents Hclock Hcallback.
  unfold open. rewrite Hattr. unfold bind, modify. cbv beta iota.
  apply wait_for_page_loaded_times_out; auto.
Qed.

(** X6.  A decorated method called with [expect_loading=True] whose
    function returns without a load having finished, and during whose
    wait no load-finished signal arrives, does not return what the
    function returned: it fails with "Unable to load requested page". *)
Theorem expect_loading_without_load_finished {A} (func : M state A) a s s0 :
  func (set_loaded false s) = (Return a, s0) ->
  loaded s0 = false ->
  (forall t : state, loaded t = false -> loaded (processEvents E t) = false) ->
  clock_goes_forward (processEvents E) ->
  wait_callback_returns call self ->
  exists fuel s1, forall fuel', (fuel <= fuel')%nat ->
    can_load_page call E self fuel' func true s
    = (Raise (Exception "Unable to load requested page"), s1).
Proof.
  intros Hfunc Hfalse Hevents Hclock Hcallback.
  destruct (wait_for_page_loaded_times_out s0 Hevents Hclock Hcallback Hfalse)
    as (fuel & s1 & Hwait).
  exists fuel, s1. intros fuel' Hle.
  unfold can_load_page, bind at 1, modify. cbv beta iota.
  unfold bind at 1. rewrite Hfunc. unfold bind at 1.
  now rewrite (Hwait fuel' Hle).
Qed.

(** X7.  [open] with a method that names no operation of the network
    manager raises "Invalid http method ..." before anything is
    assigned or requested: the state is untouched. *)
Theorem open_invalid_method fuel address method hs auth body s :
  QNetworkAccessManager_attr E (capitalize method +:+ "Operation") = None ->
  open call E self fuel address method hs auth body s
  = (Raise (Exception ("Invalid http method " +:+ method)), s).
Proof. intros Hattr. unfold open. now rewrite Hattr. Qed.

Lemma upper_of_lower (c : ascii) : upper_char (lower_char c) = upper_char c.
Proof. destruct c as [[] [] [] [] [] [] [] []]; reflexivity. Qed.

Lemma capitalize_ignores_case (m1 m2 : string) :
  lower m1 = lower m2 -> capitalize m1 = capitalize m2.
Proof.
  destruct m1 as [|c1 r1], m2 as [|c2 r2]; cbn; try discriminate; [reflexivity|].
  intros Heq. injection Heq as Hc Hr.
  now rewrite <- (upper_of_lower c1), <- (upper_of_lower c2), Hc, Hr.
Qed.

(** X8.  [open] takes the method name in any letter case: two
    spellings that differ only in case, one of which names an
    operation, give the same call. *)
Theorem open_method_case fuel address m1 m2 hs auth body operation s :
  lower m1 = lower m2 ->
  QNetworkAccessManager_attr E (capitalize m1 +:+ "Operation") = Some operation ->
  open call E self fuel address m1 hs auth body s
  = open call E self fuel address m2 hs auth body s.
Proof.
  intros Hcase Hattr. unfold open.
  rewrite <- (capitalize_ignores_case m1 m2 Hcase). now rewrite Hattr.
Qed.

(** X9.  After [open] has stored its [auth] argument and reset the
    attempt counter: with credentials, the first authentication
    request is answered with them and every later one leaves the
    authenticator as it came (the credentials are offered once);
    without credentials, the request fails on unpacking [None], and
    the counter stays at zero. *)
Theorem authenticate_once (auth : option (string * string))
    (first second : QAuthenticator) s :
  match auth with
  | Some (username, password) =>
      _authenticate first (set_auth auth 0 s)
      = (Return (mkAuthenticator username password), set_auth auth 1 s)
      /\ (_authenticate first ;;; _authenticate second) (set_auth auth 0 s)
         = (Return second, set_auth auth 1 s)
  | None =>
      _authenticate first (set_auth auth 0 s)
      = (Raise (TypeError "'NoneType' object is not iterable"),
         set_auth auth 0 s)
  end.
Proof. destruct auth as [[username password]|]; [split|]; reflexivity. Qed.

(** Once the counter is not zero, a request changes nothing. *)
Lemma authenticate_later (a : QAuthenticator) s :
  _auth_attempt s <> 0 -> _authenticate a s = (Return a, s).
Proof.
  intros Hn. unfold _authenticate, bind, get.
  destruct (_auth_attempt s =? 0) eqn:Hz; [lia | reflexivity].
Qed.

End MoreSession.

Section MoreResources.

Context {DOM callable client : Type}.

Local Abbreviation state := (@state DOM callable client).
Implicit Types (s : state) (reply : QNetworkReply).

Lemma unicode_ascii (b : string) : is_ascii b = true -> unicode b = inr b.
Proof. intros Hb. unfold unicode. now rewrite Hb. Qed.

Lemma unicode_inr (b t : string) : unicode b = inr t -> t = b /\ is_ascii b = true.
Proof.
  unfold unicode. destruct (is_ascii b); intros Heq; [|discriminate].
  injection Heq as <-. auto.
Qed.

Lemma unicode_inl (b : string) e :
  unicode b = inl e -> exc_class e = "UnicodeDecodeError" /\ is_ascii b = false.
Proof.
  unfold unicode. destruct (is_ascii b); intros Heq; [discriminate|].
  injection Heq as <-. auto.
Qed.

(** The dict the header loop builds, key by key. *)
Lemma read_headers_lookup reply (names : list string) (acc hs : gmap string string) :
  read_headers reply names acc = inr hs ->
  forall k, hs !! k = if bool_decide (k ∈ names)
                      then Some (rawHeader reply k) else acc !! k.
Proof.
  revert acc. induction names as [|h names IH]; intros acc; cbn.
  - intros Heq k. injection Heq as <-. case_bool_decide as Hk; [|reflexivity].
    now apply elem_of_nil in Hk.
  - destruct (unicode h) as [e|key] eqn:Hh; [discriminate|].
    destruct (unicode (rawHeader reply h)) as [e|v] eqn:Hv; [discriminate|].
    apply unicode_inr in Hh as [-> _]. apply unicode_inr in Hv as [-> _].
    intros Hrest k. rewrite (IH _ Hrest k).
    destruct (decide (k = h)) as [->|Hne].
    + rewrite lookup_insert_eq.
      rewrite (bool_decide_eq_true_2 (h ∈ h :: names)) by apply list_elem_of_here.
      now case_bool_decide.
    + rewrite lookup_insert_ne by congruence.
      repeat case_bool_decide; try reflexivity.
      * exfalso. apply H0. now apply list_elem_of_further.
      * exfalso. apply elem_of_cons in H0 as [?|?]; contradiction.
Qed.

(** The header loop goes through exactly when every name and every
    value is ASCII. *)
Lemma read_headers_decodes reply (names : list string) (acc : gmap string string) :
  (exists hs, read_headers reply names acc = inr hs)
  <-> Forall (fun h => ~ undecodable_header reply h) names.
Proof.
  revert acc. induction names as [|h names IH]; intros acc; cbn.
  - split; [constructor | eauto].
  - unfold undecodable_header in *.
    destruct (unicode h) as [e|key] eqn:Hh.
    + apply unicode_inl in Hh as [_ Hh]. split.
      * intros [hs Hhs]. discriminate.
      * intros Hall. apply Forall_cons in Hall as [Hnot _]. tauto.
    + apply unicode_inr in Hh as [-> Hh].
      destruct (unicode (rawHeader reply h)) as [e|v] eqn:Hv.
      * apply unicode_inl in Hv as [_ Hv]. split.
        -- intros [hs Hhs]. discriminate.
        -- intros Hall. apply Forall_cons in Hall as [Hnot _]. tauto.
      * apply unicode_inr in Hv as [-> Hv]. rewrite IH. split.
        -- intros Hall. constructor; [|assumption].
           intros [Hbad|Hbad]; congruence.
        -- intros Hall. now apply Forall_cons in Hall as [_ Hall].
Qed.

Lemma read_headers_error reply (names : list string) (acc : gmap string string) e :
  read_headers reply names acc = inl e -> exc_class e = "UnicodeDecodeError".
Proof.
  revert acc. induction names as [|h names IH]; intros acc; cbn; [discriminate|].
  destruct (unicode h) as [e1|key] eqn:Hh.
  - intros Heq. injection Heq as <-. now apply unicode_inl in Hh.
  - destruct (unicode (rawHeader reply h)) as [e1|v] eqn:Hv; [|apply IH].
    intros Heq. injection Heq as <-. now apply unicode_inl in Hv.
Qed.

(** X10.  The [headers] dict of a resource maps every header name the
    reply lists to the value the reply gives for that name, and holds
    nothing else. *)
Theorem resource_headers reply c body s r s1 :
  HttpResource__init__ reply c body s = (Return r, s1) ->
  forall h, headers r !! h = if bool_decide (h ∈ rawHeaderList reply)
                             then Some (rawHeader reply h) else None.
Proof.
  unfold HttpResource__init__, bind, Logger_log, modify. cbn.
  destruct (read_headers reply (rawHeaderList reply) ∅) as [e|hs] eqn:Hhs; cbn;
    intros Heq; [discriminate|].
  injection Heq as <- <-. cbn. intros h.
  rewrite (read_headers_lookup _ _ _ _ Hhs h). now rewrite lookup_empty.
Qed.

(** X11.  For a reply with a true status, the [finished] slot and the
    [unsupportedContent] slot return exactly when every header name
    and value of the reply is ASCII; otherwise they raise
    [UnicodeDecodeError] and the buffer is as it was.  The body plays
    no part in this. *)
Theorem slot_returns_iff_headers_decode reply s :
  status_truthy (reply_status reply) = true ->
  let decodable :=
    Forall (fun h => ~ undecodable_header reply h) (rawHeaderList reply) in
  (fst (_request_ended reply s) = Return tt <-> decodable)
  /\ (fst (_unsupported_content reply s) = Return tt <-> decodable)
  /\ (~ decodable ->
      (exists e, fst (_request_ended reply s) = Raise e
                 /\ exc_class e = "UnicodeDecodeError")
      /\ (exists e, fst (_unsupported_content reply s) = Raise e
                    /\ exc_class e = "UnicodeDecodeError")
      /\ http_resources (snd (_request_ended reply s)) = http_resources s
      /\ http_resources (snd (_unsupported_content reply s)) = http_resources s).
Proof.
  intros Hstatus decodable. subst decodable.
  rewrite <- (read_headers_decodes reply (rawHeaderList reply) ∅).
  unfold _request_ended, _unsupported_content. rewrite Hstatus.
  unfold bind, get, HttpResource__init__, bind, Logger_log, modify. cbn.
  destruct (read_headers reply (rawHeaderList reply) ∅) as [e|hs] eqn:Hhs; cbn.
  - pose proof (read_headers_error _ _ _ _ Hhs) as He.
    repeat split; try discriminate; eauto;
      try (intros [hs Hbad]; discriminate).
  - split; [split; eauto|]. split; [split; eauto|].
    intros Hnot. exfalso. apply Hnot. eauto.
Qed.

(** X12.  What is recorded as the body.  The [finished] slot takes it
    from the cache: nothing for a URL the cache does not hold,
    otherwise the cached bytes, as text when they are ASCII and as
    the same bytes when they are not (a body that does not decode is
    no error).  The [unsupportedContent] slot records the bytes read
    from the reply, whatever the cache holds. *)
Theorem recorded_content reply s :
  (forall s1, _request_ended reply s = (Return tt, s1) ->
     status_truthy (reply_status reply) = true ->
     exists r, http_resources s1 = http_resources s ++ [r]
               /\ content r
                  = (fun b => if is_ascii b then PyUnicode b else PyBytes b)
                    <$> cache s !! reply_url reply)
  /\ (forall s1, _unsupported_content reply s = (Return tt, s1) ->
        status_truthy (reply_status reply) = true ->
        exists r, http_resources s1 = http_resources s ++ [r]
                  /\ content r = Some (PyBytes (readAll reply))).
Proof.
  split; intros s1 Hrun Hstatus.
  - unfold _request_ended in Hrun. rewrite Hstatus in Hrun.
    unfold bind at 1, get in Hrun.
    apply bind_returns in Hrun as (r & s0 & Hinit & Happend).
    destruct (HttpResource_init_returns _ _ _ _ _ _ Hinit) as (_ & _ & Hc & Hbuf).
    injection Happend as <-. exists r. cbn. rewrite Hbuf. split; [reflexivity|].
    rewrite Hc. unfold content_from_cache.
    destruct (cache s !! reply_url reply) as [b|]; [|reflexivity].
    cbn. unfold unicode. now destruct (is_ascii b).
  - unfold _unsupported_content in Hrun. rewrite Hstatus in Hrun.
    unfold bind at 1, get in Hrun.
    apply bind_returns in Hrun as (r & s0 & Hinit & Happend).
    destruct (HttpResource_init_returns _ _ _ _ _ _ Hinit) as (_ & _ & Hc & Hbuf).
    injection Happend as <-. exists r. cbn. now rewrite Hbuf.
Qed.

Lemma deliver_app (a b : list signal) s :
  deliver (a ++ b) s = (deliver a ;;; deliver b) s.
Proof.
  revert s. induction a as [|sig a IH]; intros s; [reflexivity|].
  cbn [deliver app]. unfold bind.
  destruct (dispatch sig s) as [[[]|e|] s1]; try reflexivity.
  rewrite IH. reflexivity.
Qed.

Lemma deliver_keeps_flag (sigs : list signal) s :
  Forall (fun sig => ~ is_load_signal sig) sigs ->
  loaded (snd (deliver sigs s)) = loaded s.
Proof.
  intros Hall. revert s. induction Hall as [|sig sigs Hsig _ IH]; intros s; cbn;
    [reflexivity|].
  unfold bind.
  assert (Hkeep : loaded (snd (dispatch sig s)) = loaded s).
  { destruct sig; cbn in Hsig; try tauto; cbn;
      [apply keeps_unsupported_content | apply keeps_request_ended]. }
  destruct (dispatch sig s) as [[[]|e|] s1]; cbn in *; try assumption.
  now rewrite IH.
Qed.

(** X13.  After a run of signals whose slots returned, the load flag
    is what the last load signal of the run made it: true after
    [loadFinished], false after [loadStarted], and unchanged when the
    run has no load signal. *)
Theorem flag_follows_last_load_signal (sigs : list signal) s s1 :
  deliver sigs s = (Return tt, s1) ->
  (Forall (fun sig => ~ is_load_signal sig) sigs -> loaded s1 = loaded s)
  /\ (forall before after,
        sigs = before ++ loadFinished :: after ->
        Forall (fun sig => ~ is_load_signal sig) after ->
        loaded s1 = true)
  /\ (forall before after,
        sigs = before ++ loadStarted :: after ->
        Forall (fun sig => ~ is_load_signal sig) after ->
        loaded s1 = false).
Proof.
  intros Hrun. split; [|split].
  - intros Hall. pose proof (deliver_keeps_flag sigs s Hall) as Hkeep.
    now rewrite Hrun in Hkeep.
  - intros before after -> Hafter. rewrite deliver_app in Hrun.
    apply bind_returns in Hrun as ([] & s0 & _ & Hrest).
    change (deliver after (snd (_page_loaded s0)) = (Return tt, s1)) in Hrest.
    pose proof (deliver_keeps_flag after (snd (_page_loaded s0)) Hafter) as Hkeep.
    rewrite Hrest in Hkeep. exact Hkeep.
  - intros before after -> Hafter. rewrite deliver_app in Hrun.
    apply bind_returns in Hrun as ([] & s0 & _ & Hrest).
    change (deliver after (snd (_page_load_started s0)) = (Return tt, s1)) in Hrest.
    pose proof (deliver_keeps_flag after (snd (_page_load_started s0)) Hafter)
      as Hkeep.
    rewrite Hrest in Hkeep. exact Hkeep.
Qed.

End MoreResources.

Section DrainedBuffer.

Context {DOM callable client : Type}.

Local Abbreviation state := (@state DOM callable client).
Implicit Types (s : state) (reply : QNetworkReply).

Lemma headers_decode_spec reply :
  headers_decode reply = true <-> decodable_headers reply.
Proof.
  unfold headers_decode, decodable_headers.
  rewrite <- (read_headers_decodes reply (rawHeaderList reply) ∅).
  destruct (read_headers reply (rawHeaderList reply) ∅) as [e|hs].
  - split; [discriminate | intros [hs Hhs]; discriminate].
  - split; eauto.
Qed.

Lemma deliver_all_cons (sig : signal) (sigs : list signal) s :
  deliver_all (sig :: sigs) s = deliver_all sigs (snd (dispatch sig s)).
Proof. reflexivity. Qed.

(** A run all of whose slots returned is the run the toolkit makes. *)
Lemma deliver_returned (sigs : list signal) s s1 :
  deliver sigs s = (Return tt, s1) -> deliver_all sigs s = s1.
Proof.
  revert s. induction sigs as [|sig sigs IH]; intros s; cbn [deliver].
  - intros Heq. now injection Heq as <-.
  - intros Hrun. apply bind_returns in Hrun as ([] & s0 & Hsig & Hrest).
    rewrite deliver_all_cons, Hsig. now apply IH.
Qed.

(** What one signal adds to the buffer, whether its slot returns or
    raises. *)
Lemma dispatch_kept (sig : signal) s :
  exists rs,
    http_resources (snd (dispatch sig s)) = http_resources s ++ rs
    /\ map _reply rs = option_list (kept_reply sig)
    /\ Forall describes_reply rs.
Proof.
  assert (Hslot : forall reply body,
    exists rs,
      http_resources
        (snd ((c <- get cache ;;
               r <- HttpResource__init__ reply c body ;;
               modify (fun s => set_http_resources (http_resources s ++ [r]) s))
                s))
      = http_resources s ++ rs
      /\ map _reply rs = option_list (if headers_decode reply
                                      then Some reply else None)
      /\ Forall describes_reply rs).
  { intros reply body. unfold headers_decode.
    unfold bind, get, HttpResource__init__, bind, Logger_log, modify. cbn.
    destruct (read_headers reply (rawHeaderList reply) ∅) as [e|hs]; cbn.
    - exists []. rewrite app_nil_r. auto.
    - eexists [_]. split; [reflexivity|]. split; [reflexivity|].
      constructor; [split; reflexivity | constructor]. }
  assert (Hnone : exists rs : list HttpResource,
            http_resources s = http_resources s ++ rs
            /\ map _reply rs = [] /\ Forall describes_reply rs)
    by (exists []; rewrite app_nil_r; auto).
  destruct sig as [| |reply|reply]; unfold kept_reply; cbn [dispatch recorded_reply].
  - exact Hnone.
  - exact Hnone.
  - unfold _unsupported_content.
    destruct (status_truthy (reply_status reply)); [apply Hslot | exact Hnone].
  - unfold _request_ended.
    destruct (status_truthy (reply_status reply)); [apply Hslot | exact Hnone].
Qed.

Lemma deliver_all_kept (sigs : list signal) s :
  exists rs,
    http_resources (deliver_all sigs s) = http_resources s ++ rs
    /\ map _reply rs = omap kept_reply sigs
    /\ Forall describes_reply rs.
Proof.
  revert s. induction sigs as [|sig sigs IH]; intros s.
  - exists []. cbn. rewrite app_nil_r. auto.
  - rewrite deliver_all_cons.
    destruct (dispatch_kept sig s) as (rs1 & Hb1 & Hm1 & Hd1).
    destruct (IH (snd (dispatch sig s))) as (rs2 & Hb2 & Hm2 & Hd2).
    exists (rs1 ++ rs2). rewrite Hb2, Hb1, <- app_assoc.
    split; [reflexivity|]. split; [|now apply Forall_app].
    rewrite map_app, Hm1, Hm2. cbn [omap list_omap].
    now destruct (kept_reply sig).
Qed.

Lemma kept_when_decodes (sigs : list signal) :
  Forall signal_decodes sigs -> omap kept_reply sigs = omap recorded_reply sigs.
Proof.
  induction 1 as [|sig sigs Hsig _ IH]; [reflexivity|].
  cbn [omap list_omap]. rewrite IH. unfold kept_reply, signal_decodes in *.
  destruct (recorded_reply sig) as [reply|]; [|reflexivity].
  apply headers_decode_spec in Hsig. now rewrite Hsig.
Qed.

(** C2, as amended.  Between two drains, across any run of signals
    whose replies have headers that decode: each [finished] or
    [unsupportedContent] signal whose reply carries a true HTTP status
    adds one record to the buffer, a reply without a true status adds
    none, and the next drain returns exactly the records of the
    former, in the order of arrival, each carrying the URL and status
    of its reply, and leaves the buffer empty. *)
Theorem drain_returns_recorded_exchanges (sigs : list signal) s0 :
  Forall signal_decodes sigs ->
  exists rs,
    fst (_release_last_resources
           (deliver_all sigs (snd (_release_last_resources s0))))
    = Return rs
    /\ map _reply rs = omap recorded_reply sigs
    /\ Forall describes_reply rs
    /\ http_resources
         (snd (_release_last_resources
                 (deliver_all sigs (snd (_release_last_resources s0)))))
       = [].
Proof.
  intros Hdecode.
  destruct (deliver_all_kept sigs (snd (_release_last_resources s0)))
    as (rs & Hbuf & Hmap & Hd).
  exists rs. rewrite release_last_resources_eq. cbn [fst snd].
  rewrite Hbuf. cbn. rewrite Hmap, (kept_when_decodes sigs Hdecode). auto.
Qed.

End DrainedBuffer.

Section MoreDialogs.

Context {DOM element callable client : Type}.
Variable call : callable -> client -> outcome pyval * client.
Variable E : @engine DOM element callable client.
Variable self : @ghost callable.

Local Abbreviation state := (@state DOM callable client).
Implicit Types (s : state).

(** X14.  [Ghost._alert] holds one message: of two alerts raised
    before the script waits, [wait_for_alert] returns the second (the
    first is lost), together with the whole buffer.  It returns at
    once, and it consumes the message: afterwards [Ghost._alert] is
    [None] again and the buffer is empty. *)
Theorem alerts_then_wait (first second : string) fuel s :
  let r := (javaScriptAlert first ;;; javaScriptAlert second ;;;
            wait_for_alert call E self (S fuel)) s in
  fst r = Return (Some second, http_resources s)
  /\ _alert (snd r) = None
  /\ http_resources (snd r) = []
  /\ now (snd r) = now s.
Proof.
  cbv zeta. unfold bind at 1, javaScriptAlert at 1, bind at 1, modify at 1.
  cbv beta iota. unfold Logger_log at 1, modify at 1. cbv beta iota.
  unfold bind at 1, javaScriptAlert at 1, bind at 1, modify at 1.
  cbv beta iota. unfold Logger_log at 1, modify at 1. cbv beta iota.
  unfold wait_for_alert, bind at 1, wait_for, bind at 1, time_time, get at 1.
  cbv beta iota. rewrite wait_for_loop_step. unfold get at 1. cbn.
  repeat split.
Qed.

(** X15.  Expectations do not nest.  Leaving an inner
    [with ghost.confirm(...)] (or [prompt]) block empties the slot
    instead of restoring the expectation of the enclosing block: what
    runs in the outer block after the inner one finds no expectation. *)
Theorem inner_block_clears_outer {A} (inner : M state A) outer_value outer_callback
    inner_value inner_callback s :
  (forall seen,
     fst (with_confirm outer_value outer_callback
            (with_confirm inner_value inner_callback inner ;;;
             get _confirm_expected) s) = Return seen ->
     seen = None)
  /\ (forall seen,
        fst (with_prompt outer_value outer_callback
               (with_prompt inner_value inner_callback inner ;;;
                get _prompt_expected) s) = Return seen ->
        seen = None).
Proof.
  split; intros seen;
    unfold with_confirm, with_prompt, with_block, confirm__enter__,
      confirm__exit__, prompt__enter__, prompt__exit__, modify, bind, get;
    cbv beta iota;
    destruct (inner _) as [[a|e|] s1]; cbn; intros Heq;
    try discriminate; now injection Heq as <-.
Qed.

(** X16.  Each hook touches only what belongs to its own kind of
    dialog: an alert consumes no expectation, a confirm dialog leaves
    the prompt expectation and the alert message, a prompt dialog
    leaves the confirm expectation and the alert message. *)
Theorem hooks_keep_other_slots (d : dialog) s :
  match d with
  | AlertDialog _ =>
      _confirm_expected (fire call d s) = _confirm_expected s
      /\ _prompt_expected (fire call d s) = _prompt_expected s
  | ConfirmDialog _ =>
      _prompt_expected (fire call d s) = _prompt_expected s
      /\ _alert (fire call d s) = _alert s
  | PromptDialog _ _ _ =>
      _confirm_expected (fire call d s) = _confirm_expected s
      /\ _alert (fire call d s) = _alert s
  end.
Proof.
  destruct d as [msg|msg|msg dv result]; unfold fire.
  - split; reflexivity.
  - unfold javaScriptConfirm, bind, get, modify, Logger_log, modify, invoke.
    destruct (_confirm_expected s) as [[v [c|]]|]; cbn; auto.
    destruct (call c (user s)) as [r u]; cbn; auto.
  - unfold javaScriptPrompt, bind, get, modify, Logger_log, modify, invoke.
    destruct (_prompt_expected s) as [[v [c|]]|]; cbn; auto.
    + destruct (call c (user s)) as [[a|e|] u]; cbn; auto.
      destruct (py_eq_str a EmptyString), result; cbn; auto.
    + destruct (py_eq_str v EmptyString), result; cbn; auto.
Qed.

End MoreDialogs.

Section MoreForms.

Context {DOM element callable client : Type}.
Variable call : callable -> client -> outcome pyval * client.
Variable E : @engine DOM element callable client.
Variable self : @ghost callable.

Local Abbreviation state := (@state DOM callable client).
Implicit Types (s : state) (selector : string).

(** [evaluate] never raises: it returns the value of the script with
    what the buffer held when the script was done, and empties the
    buffer. *)
Lemma evaluate_func_eq script s :
  evaluate_func E script s
  = (Return (fst (evaluateJavaScript E script s),
             http_resources (snd (evaluateJavaScript E script s))),
     set_http_resources [] (snd (evaluateJavaScript E script s))).
Proof.
  unfold evaluate_func, bind at 1.
  now destruct (evaluateJavaScript E script s) as [v s1].
Qed.

Lemma evaluate_func_drains script s r s1 :
  evaluate_func E script s = (Return r, s1) -> http_resources s1 = [].
Proof. rewrite evaluate_func_eq. intros Heq. now injection Heq as _ <-. Qed.

Lemma set_field_value_returns selector value blur s res rs s1 :
  set_field_value_func E selector value blur s = (Return (res, rs), s1) ->
  rs = [] /\ (blur = true -> http_resources s1 = []).
Proof.
  unfold set_field_value_func, bind at 1, get at 1.
  destruct (isNull E _); [discriminate|].
  unfold bind at 1, get at 1. intros Hrun.
  apply bind_returns in Hrun as (res0 & s0 & _ & Hrun).
  apply bind_returns in Hrun as ([] & s2 & Hblur & Hret).
  injection Hret as <- <- <-. split; [reflexivity|].
  intros ->. apply bind_returns in Hblur as (r & s3 & Hfire & Hret).
  injection Hret as <-. now apply evaluate_func_drains in Hfire.
Qed.

(** A call with [expect_loading=True] that returned: the function
    returned, and the result is that of the wait that followed. *)
Lemma can_load_page_expecting_returns {A} fuel (func : M state A) s r s1 :
  can_load_page call E self fuel func true s = (Return r, s1) ->
  exists a s0 w,
    func (set_loaded false s) = (Return a, s0)
    /\ wait_for_page_loaded call E self fuel s0 = (Return w, s1)
    /\ r = inr w.
Proof.
  unfold can_load_page. intros Hrun.
  apply bind_returns in Hrun as ([] & t & Hset & Hrun).
  injection Hset as <-.
  apply bind_returns in Hrun as (a & s0 & Hfunc & Hrun).
  apply bind_returns in Hrun as (w & t1 & Hwait & Hret).
  injection Hret as <- <-. now exists a, s0, w.
Qed.


Lemma fill_fields_returns selector (values : list (string * pyval)) acc s rs s1 :
  fill_fields E selector values acc s = (Return rs, s1) ->
  rs = acc
  /\ (values = [] -> s1 = s)
  /\ (values <> [] -> http_resources s1 = []).
Proof.
  revert acc s. induction values as [|[name v] values IH]; intros acc s; cbn.
  - intros Heq. injection Heq as <- <-.
    split; [reflexivity|]. split; [reflexivity | congruence].
  - intros Hrun. apply bind_returns in Hrun as ([res rs0] & s0 & Hset & Hrest).
    destruct (set_field_value_returns _ _ _ _ _ _ _ Hset) as [-> Hbuf].
    destruct (IH _ _ Hrest) as (-> & Hnil & Hcons).
    cbn. rewrite app_nil_r. split; [reflexivity|]. split; [discriminate|].
    intros _. destruct values as [|fv values].
    + rewrite (Hnil eq_refl). now apply Hbuf.
    + now apply Hcons.
Qed.

Lemma fill_func_returns selector (values : list (string * pyval)) s r s1 :
  fill_func E selector values s = (Return r, s1) ->
  r = (true, [])
  /\ (values = [] -> s1 = s)
  /\ (values <> [] -> http_resources s1 = []).
Proof.
  unfold fill_func, bind at 1, exists_, get at 1.
  destruct (negb _); [discriminate|]. intros Hfunc.
  apply bind_returns in Hfunc as (rs & s2 & Hfields & Hret).
  injection Hret as <- <-.
  destruct (fill_fields_returns _ _ _ _ _ _ Hfields) as (-> & Hnil & Hcons).
  auto.
Qed.

(** X18.  [fill] reports no resource of its own.  Called without
    [expect_loading], whenever it returns it returns [(True, [])];
    with no field to fill it leaves the state as it is, and with at
    least one the buffer is empty when it returns.  Called with
    [expect_loading=True], it returns what [wait_for_page_loaded]
    returns, a wait that starts on an empty buffer when there was a
    field to fill. *)
Theorem fill_result fuel selector (values : list (string * pyval))
    (expect_loading : bool) s r s1 :
  fill call E self fuel selector values expect_loading s = (Return r, s1) ->
  if expect_loading then
    exists s0 w,
      fill_func E selector values (set_loaded false s) = (Return (true, []), s0)
      /\ (values <> [] -> http_resources s0 = [])
      /\ wait_for_page_loaded call E self fuel s0 = (Return w, s1)
      /\ r = inr w
  else
    r = inl (true, [])
    /\ (values = [] -> s1 = s)
    /\ (values <> [] -> http_resources s1 = []).
Proof.
  unfold fill. destruct expect_loading; intros Hrun.
  - apply can_load_page_expecting_returns in Hrun
      as (r0 & s0 & w & Hfunc & Hwait & ->).
    destruct (fill_func_returns _ _ _ _ _ Hfunc) as (-> & _ & Hcons).
    now exists s0, w.
  - unfold can_load_page in Hrun.
    apply bind_returns in Hrun as (r0 & s0 & Hfunc & Hret).
    injection Hret as <- <-.
    destruct (fill_func_returns _ _ _ _ _ Hfunc) as (-> & Hnil & Hcons).
    auto.
Qed.

Lemma fill_fields_app selector (before after : list (string * pyval)) acc s :
  fill_fields E selector (before ++ after) acc s
  = (rs <- fill_fields E selector before acc ;;
     fill_fields E selector after rs) s.
Proof.
  revert acc s. induction before as [|[name v] before IH]; intros acc s;
    [reflexivity|].
  cbn [fill_fields app]. unfold bind.
  destruct (set_field_value_func E _ v true s) as [[r|e|] s0]; try reflexivity.
  rewrite IH. reflexivity.
Qed.

(** X19.  [fill] is not all-or-nothing.  When it fails on some field,
    it fails in the same way, and in the same state, with any further
    fields added after it: those are never looked at, and what was
    done for the fields before the failing one is kept. *)
Theorem fill_stops_at_first_failure fuel selector
    (before after : list (string * pyval)) s e s1 :
  fill call E self fuel selector before false s = (Raise e, s1) ->
  fill call E self fuel selector (before ++ after) false s = (Raise e, s1).
Proof.
  assert (Hfunc : fill_func E selector before s = (Raise e, s1) ->
                  fill_func E selector (before ++ after) s = (Raise e, s1)).
  { unfold fill_func, exists_, bind, get.
    destruct (negb _); [auto|].
    rewrite fill_fields_app. unfold bind.
    destruct (fill_fields E selector before [] s) as [[rs|e0|] s0];
      intros Heq; try discriminate; exact Heq. }
  unfold fill, can_load_page, bind.
  destruct (fill_func E selector before s) as [[r|e0|] s0] eqn:Hbefore;
    intros Heq; try discriminate.
  injection Heq as -> ->. now rewrite (Hfunc eq_refl).
Qed.

(** What [set_field_value] does from the tag test on, for an element
    that was found. *)
Lemma set_field_value_found selector value blur s :
  isNull E (findFirstElement E selector (page s)) = false ->
  set_field_value_func E selector value blur s
  = (let el := findFirstElement E selector (page s) in
     tag <- get (fun s => tagName E el (page s)) ;;
     res <-
       (if bool_decide (tag = "SELECT") then
          _set_text_value E el value ;;; ret VNone
        else if bool_decide (tag = "TEXTAREA") then
          _set_textarea_value E el value ;;; ret VNone
        else if bool_decide (tag = "INPUT") then
          ty <- get (fun s => attribute E el "type" (page s)) ;;
          if bool_decide (ty ∈ text_input_types) then
            _set_text_value E el value ;;; ret VNone
          else if bool_decide (ty = "checkbox") then
            els <- get (fun s => findAllElements E selector (page s)) ;;
            (if (1 <? length els)%nat
             then _set_checkboxes_value E els value
             else _set_checkbox_value E el value) ;;;
            ret VNone
          else if bool_decide (ty = "radio") then
            els <- get (fun s => findAllElements E selector (page s)) ;;
            _set_radio_value E els value ;;;
            ret VNone
          else if bool_decide (ty = "file") then
            modify (set_upload_file value) ;;;
            r <- click_func E selector ;;
            modify (set_upload_file VNone) ;;;
            ret (fst r)
          else ret VNone
        else raise (Exception "unsuported field tag")) ;;
     (if blur then fire_on_func E selector "blur" ;;; ret tt else ret tt) ;;;
     ret (res, [])) s.
Proof.
  intros Hfound. unfold set_field_value_func, bind at 1, get at 1.
  now rewrite Hfound.
Qed.

(** X20.  For an element that is neither a [SELECT], a [TEXTAREA] nor
    an [INPUT], [set_field_value] raises "unsuported field tag"
    without having touched the page, with or without [blur]. *)
Theorem unsupported_tag_fails selector value blur s :
  let el := findFirstElement E selector (page s) in
  isNull E el = false ->
  tagName E el (page s) <> "SELECT" ->
  tagName E el (page s) <> "TEXTAREA" ->
  tagName E el (page s) <> "INPUT" ->
  set_field_value_func E selector value blur s
  = (Raise (Exception "unsuported field tag"), s).
Proof.
  intros el Hfound H1 H2 H3. rewrite set_field_value_found by exact Hfound.
  cbv zeta. fold el. unfold bind at 1, get at 1.
  rewrite !bool_decide_eq_false_2 by assumption. reflexivity.
Qed.

(** X21.  An [INPUT] whose [type] is none of those handled (a submit
    button, say) is silently skipped: without [blur],
    [set_field_value] returns [(None, [])] and the state is
    untouched. *)
Theorem unhandled_input_type_is_skipped selector value s :
  let el := findFirstElement E selector (page s) in
  let ty := attribute E el "type" (page s) in
  isNull E el = false ->
  tagName E el (page s) = "INPUT" ->
  ty ∉ text_input_types -> ty <> "checkbox" -> ty <> "radio" -> ty <> "file" ->
  set_field_value_func E selector value false s = (Return (VNone, []), s).
Proof.
  intros el ty Hfound Htag Htext Hcheck Hradio Hfile.
  rewrite set_field_value_found by exact Hfound.
  cbv zeta. fold el. unfold bind at 1, get at 1. rewrite Htag.
  change (bool_decide ("INPUT" = "SELECT")) with false.
  change (bool_decide ("INPUT" = "TEXTAREA")) with false.
  change (bool_decide ("INPUT" = "INPUT")) with true.
  cbv beta iota. unfold bind at 1, bind at 1, get at 1. fold ty.
  rewrite !bool_decide_eq_false_2 by assumption. reflexivity.
Qed.

Lemma set_radio_value_no_match (els : list element) value s :
  Forall (fun el => py_eq_str value (attribute E el "value" (page s)) = false) els ->
  _set_radio_value E els value s = (Return tt, s).
Proof.
  induction 1 as [|el els Hel _ IH]; [reflexivity|].
  cbn [_set_radio_value]. unfold bind at 1, get at 1. rewrite Hel.
  unfold bind at 1, ret at 1. exact IH.
Qed.

(** X22.  Radio buttons are only ever checked, never unchecked.  When
    none of the buttons the selector finds has the given value,
    nothing happens: without [blur], [set_field_value] returns
    [(None, [])], raises nothing and leaves the state untouched. *)
Theorem radio_without_match_is_skipped selector value s :
  let el := findFirstElement E selector (page s) in
  isNull E el = false ->
  tagName E el (page s) = "INPUT" ->
  attribute E el "type" (page s) = "radio" ->
  Forall (fun el => py_eq_str value (attribute E el "value" (page s)) = false)
    (findAllElements E selector (page s)) ->
  set_field_value_func E selector value false s = (Return (VNone, []), s).
Proof.
  intros el Hfound Htag Hty Hnone.
  rewrite set_field_value_found by exact Hfound.
  cbv zeta. fold el. unfold bind at 1, get at 1. rewrite Htag.
  change (bool_decide ("INPUT" = "SELECT")) with false.
  change (bool_decide ("INPUT" = "TEXTAREA")) with false.
  change (bool_decide ("INPUT" = "INPUT")) with true.
  cbv beta iota. unfold bind at 1, bind at 1, get at 1. rewrite Hty.
  change (bool_decide ("radio" ∈ text_input_types)) with false.
  change (bool_decide ("radio" = "checkbox")) with false.
  change (bool_decide ("radio" = "radio")) with true.
  cbv beta iota. unfold bind at 1, get at 1. unfold bind at 1.
  now rewrite set_radio_value_no_match.
Qed.

(** X23.  For a file input, the value is in [Ghost._upload_file] (and
    so is what [chooseFile] answers) exactly while the click script
    runs: without [blur], [set_field_value] returns the value of that
    script, and [Ghost._upload_file] is [None] again in the state it
    returns in. *)
Theorem file_input_upload selector value s :
  let el := findFirstElement E selector (page s) in
  let js := evaluateJavaScript E (click_script selector)
              (set_upload_file value s) in
  isNull E el = false ->
  tagName E el (page s) = "INPUT" ->
  attribute E el "type" (page s) = "file" ->
  fst (chooseFile (set_upload_file value s)) = Return value
  /\ set_field_value_func E selector value false s
     = (Return (fst js, []),
        set_upload_file VNone (set_http_resources [] (snd js)))
  /\ fst (chooseFile (snd (set_field_value_func E selector value false s)))
     = Return VNone.
Proof.
  intros el js Hfound Htag Hty.
  assert (Hrun : set_field_value_func E selector value false s
     = (Return (fst js, []),
        set_upload_file VNone (set_http_resources [] (snd js)))).
  { rewrite set_field_value_found by exact Hfound.
    cbv zeta. fold el. unfold bind at 1, get at 1. rewrite Htag.
    change (bool_decide ("INPUT" = "SELECT")) with false.
    change (bool_decide ("INPUT" = "TEXTAREA")) with false.
    change (bool_decide ("INPUT" = "INPUT")) with true.
    cbv beta iota. unfold bind at 1, bind at 1, get at 1. rewrite Hty.
    change (bool_decide ("file" ∈ text_input_types)) with false.
    change (bool_decide ("file" = "checkbox")) with false.
    change (bool_decide ("file" = "radio")) with false.
    change (bool_decide ("file" = "file")) with true.
    cbv beta iota. unfold bind at 1, modify at 1. cbv beta iota.
    unfold bind at 1, click_func, bind at 1, exists_, get at 1.
    change (page (set_upload_file value s)) with (page s). fold el.
    rewrite Hfound. cbn [negb]. cbv beta iota.
    rewrite evaluate_func_eq. fold js. reflexivity. }
  split; [reflexivity|]. split; [exact Hrun|]. now rewrite Hrun.
Qed.

(** X24.  Every method that returns resources leaves the buffer empty
    when it returns: the resources are handed over, not copied. *)
Theorem returned_resources_leave_buffer fuel s s1 :
  (forall script r, evaluate_func E script s = (Return r, s1) ->
     http_resources s1 = [])
  /\ (forall selector r, click_func E selector s = (Return r, s1) ->
        http_resources s1 = [])
  /\ (forall selector method r,
        fire_on_func E selector method s = (Return r, s1) ->
        http_resources s1 = [])
  /\ (forall name r, global_exists E name s = (Return r, s1) ->
        http_resources s1 = [])
  /\ (forall r, wait_for_page_loaded call E self fuel s = (Return r, s1) ->
        http_resources s1 = [])
  /\ (forall r, wait_for_alert call E self fuel s = (Return r, s1) ->
        http_resources s1 = [])
  /\ (forall selector r,
        wait_for_selector call E self fuel selector s = (Return r, s1) ->
        http_resources s1 = [])
  /\ (forall text r, wait_for_text call E self fuel text s = (Return r, s1) ->
        http_resources s1 = [])
  /\ (forall address method hs auth body r,
        open call E self fuel address method hs auth body s = (Return r, s1) ->
        http_resources s1 = []).
Proof.
  assert (Hrelease : forall {A} (k : list HttpResource -> M state A)
            (t : state) r,
            (forall rs t0 t1, k rs t0 = (Return r, t1) -> t1 = t0) ->
            (rs <- _release_last_resources ;; k rs) t = (Return r, s1) ->
            http_resources s1 = []).
  { intros A k t r Hk Hrun.
    apply bind_returns in Hrun as (rs & t0 & Hrel & Hrest).
    rewrite release_last_resources_eq in Hrel. injection Hrel as _ <-.
    now rewrite (Hk _ _ _ Hrest). }
  assert (Hwaited : forall r,
            wait_for_page_loaded call E self fuel s = (Return r, s1) ->
            http_resources s1 = []).
  { intros r Hrun. apply bind_returns in Hrun as ([] & t & _ & Hrun).
    eapply Hrelease; [|exact Hrun].
    intros rs t0 t1 Hk. apply bind_returns in Hk as (u & t2 & Hget & Hret).
    injection Hget as _ <-. now injection Hret as _ <-. }
  repeat split.
  - intros script r. apply evaluate_func_drains.
  - intros selector r. unfold click_func, bind at 1, exists_, get at 1.
    destruct (negb _); [discriminate | apply evaluate_func_drains].
  - intros selector method r. apply evaluate_func_drains.
  - intros name r Hrun. apply bind_returns in Hrun as (r0 & t & Hev & Hret).
    injection Hret as _ <-. now apply evaluate_func_drains in Hev.
  - exact Hwaited.
  - intros r Hrun. apply bind_returns in Hrun as ([] & t & _ & Hrun).
    apply bind_returns in Hrun as (m & t0 & Hget & Hrun).
    injection Hget as _ <-.
    apply bind_returns in Hrun as ([] & t1 & Hmod & Hrun).
    eapply Hrelease; [|exact Hrun].
    intros rs t2 t3 Hk. now injection Hk as _ <-.
  - intros selector r Hrun. apply bind_returns in Hrun as ([] & t & _ & Hrun).
    eapply Hrelease; [|exact Hrun].
    intros rs t2 t3 Hk. now injection Hk as _ <-.
  - intros text r Hrun. apply bind_returns in Hrun as ([] & t & _ & Hrun).
    eapply Hrelease; [|exact Hrun].
    intros rs t2 t3 Hk. now injection Hk as _ <-.
  - intros address method hs auth body r. unfold open.
    destruct (QNetworkAccessManager_attr E _); [|discriminate].
    intros Hrun. apply bind_returns in Hrun as ([] & t & _ & Hrun).
    apply bind_returns in Hrun as ([] & t0 & _ & Hrun).
    apply bind_returns in Hrun as ([] & t1 & _ & Hrun).
    revert Hrun. clear. intros Hrun.
    apply bind_returns in Hrun as ([] & t & _ & Hrun).
    apply bind_returns in Hrun as (rs & t2 & Hrel & Hrest).
    rewrite release_last_resources_eq in Hrel. injection Hrel as _ <-.
    apply bind_returns in Hrest as (u & t3 & Hget & Hret).
    injection Hget as _ <-. now injection Hret as _ <-.
Qed.

End MoreForms.

(** ** The further properties, on the example sessions *)

Lemma wait_for_returns_at_once_witness :
  fst (get loaded loaded_state) = Return true
  /\ wait_for call_client static_engine impatient 1 (get loaded) "late"
       loaded_state
     = (Return tt, loaded_state).
Proof.
  split; [reflexivity|].
  exact (wait_for_returns_at_once call_client static_engine impatient 0
           (get loaded) "late" loaded_state eq_refl).
Defined.

Lemma wait_for_returns_when_true_witness :
  wait_for call_client static_engine impatient 3 (get loaded) "late"
    loaded_state = (Return tt, loaded_state)
  /\ loaded loaded_state = true.
Proof.
  assert (Hrun : wait_for call_client static_engine impatient 3 (get loaded)
                   "late" loaded_state = (Return tt, loaded_state))
    by reflexivity.
  split; [exact Hrun|].
  exact (wait_for_returns_when_true call_client static_engine impatient 3
           loaded "late" loaded_state loaded_state Hrun).
Defined.

Lemma no_callback_returns : wait_callback_returns call_client impatient.
Proof. intros cb Hcb. discriminate Hcb. Qed.


Lemma static_events_clock_forward : clock_goes_forward (processEvents static_engine).
Proof. intros s. cbn. lia. Qed.


Lemma timeout_within_one_turn_witness :
  loaded waiting_state = false
  /\ 0 <= wait_timeout impatient
  /\ exists e s1,
       wait_for call_client static_engine impatient 10 (get loaded) "late"
         waiting_state = (Raise e, s1)
       /\ wait_timeout impatient < now s1 - now waiting_state
          <= wait_timeout impatient + 10.
Proof.
  split; [reflexivity|]. split; [cbn; lia|].
  assert (Hrun : exists e s1,
    wait_for call_client static_engine impatient 10 (get loaded) "late"
      waiting_state = (Raise e, s1))
    by (do 2 eexists; vm_compute; reflexivity).
  destruct Hrun as (e & s1 & Hrun). exists e, s1. split; [exact Hrun|].
  apply (timeout_within_one_turn call_client static_engine impatient
           (get loaded) "late" (fun s => loaded s = false)
           flag_stays_false_on_static_page no_callback_returns 10 10
           waiting_state e s1);
    [reflexivity | cbn; lia | cbn; lia | intros t _; cbn; lia | exact Hrun].
Defined.


Lemma open_without_load_finished_witness :
  QNetworkAccessManager_attr static_engine (capitalize "get" +:+ "Operation")
  = Some "GetOperation"
  /\ exists fuel s1, forall fuel', (fuel <= fuel')%nat ->
       open call_client static_engine impatient fuel' "http://localhost/form"
         "get" [] None None (initial example_page)
       = (Raise (Exception "Unable to load requested page"), s1).
Proof.
  split; [reflexivity|].
  exact (open_without_load_finished call_client static_engine impatient
           "http://localhost/form" "get" [] None None "GetOperation"
           (initial example_page) eq_refl (fun t H => H)
           static_events_clock_forward no_callback_returns).
Defined.

Lemma expect_loading_without_load_finished_witness :
  fst (click_func static_engine "#go" (set_loaded false (initial example_page)))
  = Return (VNone, [])
  /\ exists fuel s1, forall fuel', (fuel <= fuel')%nat ->
       click call_client static_engine impatient fuel' "#go" true
         (initial example_page)
       = (Raise (Exception "Unable to load requested page"), s1).
Proof.
  split; [reflexivity|].
  exact (expect_loading_without_load_finished call_client static_engine
           impatient (click_func static_engine "#go") (VNone, [])
           (initial example_page) (set_loaded false (initial example_page))
           eq_refl eq_refl (fun t H => H)
           static_events_clock_forward no_callback_returns).
Defined.

Lemma open_invalid_method_witness :
  QNetworkAccessManager_attr static_engine
    (capitalize "teleport" +:+ "Operation") = None
  /\ open call_client static_engine impatient 5 "http://localhost/form"
       "teleport" [] None None (initial example_page)
     = (Raise (Exception "Invalid http method teleport"), initial example_page).
Proof.
  split; [reflexivity|].
  exact (open_invalid_method call_client static_engine impatient 5
           "http://localhost/form" "teleport" [] None None
           (initial example_page) eq_refl).
Defined.

Lemma open_method_case_witness :
  lower "GET" = lower "get"
  /\ open call_client static_engine impatient 5 "http://localhost/form" "GET"
       [] None None (initial example_page)
     = open call_client static_engine impatient 5 "http://localhost/form" "get"
         [] None None (initial example_page).
Proof.
  split; [reflexivity|].
  exact (open_method_case call_client static_engine impatient 5
           "http://localhost/form" "GET" "get" [] None None "GetOperation"
           (initial example_page) eq_refl eq_refl).
Defined.

Lemma resource_headers_witness :
  exists r s1,
    HttpResource__init__ (example_reply "http://localhost/form" (Some 200))
      ∅ None (initial example_page) = (Return r, s1)
    /\ headers r !! "Content-Type" = Some "text/html"
    /\ headers r !! "Set-Cookie" = None.
Proof.
  assert (Hrun : exists r s1,
    HttpResource__init__ (example_reply "http://localhost/form" (Some 200))
      ∅ None (initial example_page) = (Return r, s1))
    by (do 2 eexists; vm_compute; reflexivity).
  destruct Hrun as (r & s1 & Hrun). exists r, s1. split; [exact Hrun|].
  split;
    rewrite (resource_headers _ _ _ _ _ _ Hrun); reflexivity.
Defined.

Lemma slot_returns_iff_headers_decode_witness :
  status_truthy (reply_status latin1_reply) = true
  /\ undecodable_header latin1_reply "X-Author"
  /\ (exists e, fst (_request_ended latin1_reply (initial example_page)) = Raise e
                /\ exc_class e = "UnicodeDecodeError")
  /\ http_resources (snd (_request_ended latin1_reply (initial example_page)))
     = [].
Proof.
  assert (Hbad : undecodable_header latin1_reply "X-Author")
    by (right; reflexivity).
  split; [reflexivity|]. split; [exact Hbad|].
  destruct (slot_returns_iff_headers_decode latin1_reply (initial example_page)
              eq_refl) as (_ & _ & Hfail).
  destruct Hfail as (Hended & _ & Hbuf & _).
  - intros Hall. apply Forall_cons in Hall as [_ Hall].
    apply Forall_cons in Hall as [Hnot _]. exact (Hnot Hbad).
  - split; [exact Hended | exact Hbuf].
Defined.

Lemma recorded_content_witness :
  exists s1 r,
    _request_ended (example_reply "http://localhost/form" (Some 200))
      latin1_cached = (Return tt, s1)
    /\ http_resources s1 = http_resources latin1_cached ++ [r]
    /\ content r = Some (PyBytes (String (ascii_of_nat 233) "t")).
Proof.
  assert (Hrun : exists s1,
    _request_ended (example_reply "http://localhost/form" (Some 200))
      latin1_cached = (Return tt, s1))
    by (eexists; vm_compute; reflexivity).
  destruct Hrun as (s1 & Hrun).
  destruct (proj1 (recorded_content
                     (example_reply "http://localhost/form" (Some 200))
                     latin1_cached) s1 Hrun eq_refl) as (r & Hbuf & Hcontent).
  exists s1, r. split; [exact Hrun|]. split; [exact Hbuf|].
  rewrite Hcontent. reflexivity.
Defined.

Lemma flag_follows_last_load_signal_witness :
  exists s1,
    deliver [loadFinished; loadStarted; finished local_file_reply]
      (initial example_page) = (Return tt, s1)
    /\ loaded s1 = false.
Proof.
  assert (Hrun : exists s1,
    deliver [loadFinished; loadStarted; finished local_file_reply]
      (initial example_page) = (Return tt, s1))
    by (eexists; vm_compute; reflexivity).
  destruct Hrun as (s1 & Hrun). exists s1. split; [exact Hrun|].
  apply (proj2 (proj2 (flag_follows_last_load_signal _ _ _ Hrun))
           [loadFinished] [finished local_file_reply] eq_refl).
  constructor; [intros [] | constructor].
Defined.

Lemma inner_block_clears_outer_witness :
  fst (with_confirm (VBool true) None
         (with_confirm (VBool false) None (ret tt) ;;; get _confirm_expected)
         (initial example_page)) = Return None.
Proof.
  assert (Hrun : exists seen,
    fst (with_confirm (VBool true) None
           (with_confirm (VBool false) None (ret tt) ;;; get _confirm_expected)
           (initial example_page)) = Return seen)
    by (eexists; reflexivity).
  destruct Hrun as (seen & Hrun). rewrite Hrun. f_equal.
  exact (proj1 (inner_block_clears_outer (ret tt) (VBool true) None
                  (VBool false) None (initial example_page)) seen Hrun).
Defined.


Lemma fill_result_witness :
  (exists r s1,
     fill call_client form_engine impatient 1 "form"
       [("user", VStr "ada"); ("colour", VStr "green")] false form_session
     = (Return r, s1)
     /\ r = inl (true, [])
     /\ http_resources s1 = [])
  /\ (exists r s1,
        fill call_client loading_engine impatient 5 "form"
          [("user", VStr "ada"); ("colour", VStr "green")] true form_session
        = (Return r, s1)
        /\ exists s0 w,
             fill_func loading_engine "form"
               [("user", VStr "ada"); ("colour", VStr "green")]
               (set_loaded false form_session) = (Return (true, []), s0)
             /\ http_resources s0 = []
             /\ r = inr w).
Proof.
  split.
  - assert (Hrun : exists r s1,
      fill call_client form_engine impatient 1 "form"
        [("user", VStr "ada"); ("colour", VStr "green")] false form_session
      = (Return r, s1))
      by (do 2 eexists; vm_compute; reflexivity).
    destruct Hrun as (r & s1 & Hrun). exists r, s1. split; [exact Hrun|].
    destruct (fill_result call_client form_engine impatient 1 "form" _ false
                form_session r s1 Hrun) as (Hr & _ & Hbuf).
    split; [exact Hr | apply Hbuf; discriminate].
  - assert (Hrun : exists r s1,
      fill call_client loading_engine impatient 5 "form"
        [("user", VStr "ada"); ("colour", VStr "green")] true form_session
      = (Return r, s1))
      by (do 2 eexists; vm_compute; reflexivity).
    destruct Hrun as (r & s1 & Hrun). exists r, s1. split; [exact Hrun|].
    destruct (fill_result call_client loading_engine impatient 5 "form" _ true
                form_session r s1 Hrun) as (s0 & w & Hfunc & Hbuf & _ & Hr).
    exists s0, w. split; [exact Hfunc|]. split; [apply Hbuf; discriminate | exact Hr].
Defined.

Lemma fill_stops_at_first_failure_witness :
  exists e s1,
    fill call_client form_engine impatient 1 "form"
      [("user", VStr "ada"); ("age", VInt 36)] false form_session
    = (Raise e, s1)
    /\ fill call_client form_engine impatient 1 "form"
         ([("user", VStr "ada"); ("age", VInt 36)] ++ [("colour", VStr "red")])
         false form_session
       = (Raise e, s1)
    /\ http_resources s1 = [].
Proof.
  assert (Hrun : exists e s1,
    fill call_client form_engine impatient 1 "form"
      [("user", VStr "ada"); ("age", VInt 36)] false form_session
    = (Raise e, s1) /\ http_resources s1 = [])
    by (do 2 eexists; vm_compute; split; reflexivity).
  destruct Hrun as (e & s1 & Hrun & Hbuf). exists e, s1.
  split; [exact Hrun|]. split; [|exact Hbuf].
  exact (fill_stops_at_first_failure call_client form_engine impatient 1
           "form" _ [("colour", VStr "red")] form_session e s1 Hrun).
Defined.

Lemma unsupported_tag_fails_witness :
  tagName form_engine (findFirstElement form_engine "#banner" (page form_session))
    (page form_session) = "DIV"
  /\ set_field_value_func form_engine "#banner" (VStr "x") true form_session
     = (Raise (Exception "unsuported field tag"), form_session).
Proof.
  split; [reflexivity|].
  apply (unsupported_tag_fails form_engine "#banner" (VStr "x") true
           form_session); [reflexivity | discriminate..].
Defined.

Lemma unhandled_input_type_is_skipped_witness :
  attribute form_engine
    (findFirstElement form_engine "form [name=send]" (page form_session))
    "type" (page form_session) = "submit"
  /\ set_field_value_func form_engine "form [name=send]" (VStr "x") false
       form_session
     = (Return (VNone, []), form_session).
Proof.
  split; [reflexivity|].
  apply (unhandled_input_type_is_skipped form_engine "form [name=send]"
           (VStr "x") form_session);
    [reflexivity | reflexivity | | discriminate..].
  intros Hin. apply (bool_decide_eq_true_2 _) in Hin. discriminate Hin.
Defined.

Lemma radio_without_match_is_skipped_witness :
  findAllElements form_engine "form [name=colour]" (page form_session)
  = [Some (mkField "INPUT" "radio" "red"); Some (mkField "INPUT" "radio" "green")]
  /\ set_field_value_func form_engine "form [name=colour]" (VStr "blue") false
       form_session
     = (Return (VNone, []), form_session).
Proof.
  split; [reflexivity|].
  apply (radio_without_match_is_skipped form_engine "form [name=colour]"
           (VStr "blue") form_session); try reflexivity.
  repeat constructor.
Defined.

Lemma file_input_upload_witness :
  attribute form_engine
    (findFirstElement form_engine "form [name=photo]" (page form_session))
    "type" (page form_session) = "file"
  /\ fst (chooseFile (set_upload_file (VStr "/tmp/me.png") form_session))
     = Return (VStr "/tmp/me.png")
  /\ fst (chooseFile
            (snd (set_field_value_func form_engine "form [name=photo]"
                    (VStr "/tmp/me.png") false form_session)))
     = Return VNone.
Proof.
  split; [reflexivity|].
  destruct (file_input_upload form_engine "form [name=photo]"
              (VStr "/tmp/me.png") form_session eq_refl eq_refl eq_refl)
    as (Hduring & _ & Hafter).
  split; [exact Hduring | exact Hafter].
Defined.

Lemma returned_resources_leave_buffer_witness :
  http_resources form_session <> []
  /\ exists r s1,
       evaluate_func form_engine "document.title" form_session = (Return r, s1)
       /\ http_resources s1 = [].
Proof.
  split; [discriminate|].
  assert (Hrun : exists r s1,
    evaluate_func form_engine "document.title" form_session = (Return r, s1))
    by (do 2 eexists; vm_compute; reflexivity).
  destruct Hrun as (r & s1 & Hrun). exists r, s1. split; [exact Hrun|].
  exact (proj1 (returned_resources_leave_buffer call_client form_engine
                  impatient 1 form_session s1) "document.title" r Hrun).
Defined.

Lemma example_signals_decode : Forall signal_decodes example_signals.
Proof.
  repeat constructor; intros [Hbad|Hbad]; discriminate Hbad.
Qed.

Lemma drain_returns_recorded_exchanges_witness :
  Forall signal_decodes example_signals
  /\ exists rs,
       fst (_release_last_resources
              (deliver_all example_signals
                 (snd (_release_last_resources loaded_state))))
       = Return rs
       /\ map reply_url (map _reply rs)
          = ["http://localhost/form"; "http://localhost/report.pdf"].
Proof.
  split; [exact example_signals_decode|].
  destruct (drain_returns_recorded_exchanges example_signals loaded_state
              example_signals_decode) as (rs & Hrs & Hmap & _).
  exists rs. split; [exact Hrs|]. now rewrite Hmap.
Defined.

(** A reply with a header that does not decode leaves no record, and
    the signals after it are recorded all the same. *)
Lemma undecodable_reply_leaves_no_record :
  map url
    (http_resources
       (deliver_all [finished latin1_reply;
                     finished (example_reply "http://localhost/form" (Some 200))]
          (initial example_page)))
  = ["http://localhost/form"].
Proof. vm_compute. reflexivity. Qed.
